(** * Complianz: the compliance rule-matching engine of [app.py]

    A shallow embedding of [normalize_text], [extract_usage_rate],
    [check_compliance] and the catalog update of [add_rule], with the
    properties of the specification stated over it; then of what
    [process_with_docai] makes of a processed document, of the page of
    [display_results], of the flowables of [generate_pdf] and of the
    batch loop of [main], with further properties of the code.

    Conventions of the embedding.
    - A Python [str] is a Rocq [string]; a character is a code point below
      256 (the Latin-1 range), on which [str.lower], [str.split] and the
      [re] classes [\s] and [\d] act character by character as written in
      [lower_char], [isspace] and [isdigit] below.
    - A value loaded by [json.load] is a [pyval]; an object keeps its keys
      in insertion order, so a [dict] is an association list.
    - A raised exception is the [Raise] case of [result]; [st.warning]
      appends to a log that [check_compliance] returns with its result. *)

From Stdlib Require Import List String Ascii Bool Arith NArith ZArith Lia.
From Stdlib Require Import DecimalString.
Import ListNotations.
Open Scope string_scope.

(** ** Characters and the string built-ins of Python *)

Module Text.

Definition code (c : ascii) : N := N_of_ascii c.

(** [str.isspace] on one character, which is also what [str.split()] and
    the pattern [\s] test: TAB..CR, FS..US, SPACE, NEL and NBSP. *)
Definition isspace (c : ascii) : bool :=
  let n := code c in
  ((9 <=? n) && (n <=? 13) || (28 <=? n) && (n <=? 32)
   || (n =? 133) || (n =? 160))%N.

(** The pattern class [\d]: the decimal digits. *)
Definition isdigit (c : ascii) : bool :=
  let n := code c in ((48 <=? n) && (n <=? 57))%N.

(** An upper-case letter: A..Z, and in the Latin-1 block every code point
    from 192 to 222 but the multiplication sign. *)
Definition isupper (c : ascii) : bool :=
  let n := code c in
  ((65 <=? n) && (n <=? 90)
   || (192 <=? n) && (n <=? 222) && negb (n =? 215))%N.

Definition lower_char (c : ascii) : ascii :=
  if isupper c then ascii_of_N (code c + 32) else c.

(** [s.lower()] *)
Fixpoint lower (s : string) : string :=
  match s with
  | EmptyString => EmptyString
  | String c s' => String (lower_char c) (lower s')
  end.

(** Does [s] begin inside a word? *)
Definition starts_word (s : string) : bool :=
  match s with
  | String d _ => negb (isspace d)
  | EmptyString => false
  end.

(** [s.split()]: the maximal runs of characters that are not white space,
    in order. *)
Fixpoint split (s : string) : list string :=
  match s with
  | EmptyString => []
  | String c s' =>
      if isspace c then split s'
      else if starts_word s' then
             match split s' with
             | w :: ws => String c w :: ws
             | [] => [String c ""]
             end
           else String c "" :: split s'
  end.

(** [sep.join(words)] *)
Fixpoint join (sep : string) (words : list string) : string :=
  match words with
  | [] => ""
  | [w] => w
  | w :: ws => w ++ sep ++ join sep ws
  end.

(** [s.startswith(p)] *)
Fixpoint startswith (p s : string) : bool :=
  match p, s with
  | EmptyString, _ => true
  | String a p', String b s' => Ascii.eqb a b && startswith p' s'
  | String _ _, EmptyString => false
  end.

(** [needle in hay] for two strings. *)
Fixpoint contains (needle hay : string) : bool :=
  startswith needle hay
  || match hay with
     | EmptyString => false
     | String _ hay' => contains needle hay'
     end.

(** [s[n:]] *)
Fixpoint drop (n : nat) (s : string) : string :=
  match n, s with
  | O, _ => s
  | S n', String _ s' => drop n' s'
  | S _, EmptyString => EmptyString
  end.

(** [s[:n]] *)
Fixpoint take (n : nat) (s : string) : string :=
  match n, s with
  | O, _ => EmptyString
  | S n', String c s' => String c (take n' s')
  | S _, EmptyString => EmptyString
  end.

End Text.

(** ** Values of the catalog *)

(** A float is kept as the two things the program observes of it: the
    text [repr] prints and whether it differs from zero. *)
Record pyfloat := { float_repr : string; float_nonzero : bool }.

#[warnings="-register-all"]
Inductive pyval :=
| PNone
| PBool (b : bool)
| PInt (z : Z)
| PFloat (f : pyfloat)
| PStr (s : string)
| PList (l : list pyval)
| PDict (d : list (string * pyval)).

(** [normalize_text], lines 75-78. *)
Definition normalize_text (text : pyval) : string :=
  match text with
  | PStr s => Text.join " " (Text.split (Text.lower s))
  | _ => ""
  end.

(** The transformation in the words of the specification: lower-case,
    then turn every run of white space into one space, then trim. *)
Module NormalizeSpec.

Fixpoint collapse (s : string) : string :=
  match s with
  | EmptyString => EmptyString
  | String c s' =>
      if Text.isspace c then
        match s' with
        | String d _ => if Text.isspace d then collapse s'
                        else String " " (collapse s')
        | EmptyString => String " " EmptyString
        end
      else String c (collapse s')
  end.

Fixpoint lstrip (s : string) : string :=
  match s with
  | EmptyString => EmptyString
  | String c s' => if Text.isspace c then lstrip s' else s
  end.

Fixpoint rstrip (s : string) : string :=
  match s with
  | EmptyString => EmptyString
  | String c s' =>
      match rstrip s' with
      | EmptyString => if Text.isspace c then EmptyString else String c EmptyString
      | r => String c r
      end
  end.

Definition trim (s : string) : string := rstrip (lstrip s).

Definition normalize (s : string) : string := trim (collapse (Text.lower s)).

End NormalizeSpec.

(** ** The regular expressions of [re], as far as the patterns use them *)

Module Re.

(** What one position of a pattern accepts: a literal character, [\s]
    or [\d]. *)
Inductive cls :=
| CChar (c : ascii)
| CSpace
| CDigit.

(** A pattern. [Atom ks] accepts one character that is in one of the
    classes [ks] (a literal is [Atom [CChar c]], a set [[...]] lists its
    members); [Star] and [Plus] are the greedy [*] and [+] over such an
    atom, [Opt] the greedy [?], [Group i] the [i]-th parenthesis. *)
Inductive regex :=
| Eps
| Atom (ks : list cls)
| Star (ks : list cls)
| Plus (ks : list cls)
| Opt (r : regex)
| Seq (r1 r2 : regex)
| Alt (r1 r2 : regex)
| Group (i : nat) (r : regex).

(** The captured text of each group, latest first. *)
Definition groups := list (nat * string).

(** [m.group(i)]; [None] when the group took no part in the match. *)
Fixpoint group (i : nat) (g : groups) : option string :=
  match g with
  | [] => None
  | (j, s) :: g' => if Nat.eqb i j then Some s else group i g'
  end.

(** With [re.IGNORECASE] a literal is compared after lower-casing both
    sides; [\s] and [\d] are not affected. *)
Definition cls_match (ignorecase : bool) (k : cls) (c : ascii) : bool :=
  match k with
  | CChar x =>
      if ignorecase then Ascii.eqb (Text.lower_char c) (Text.lower_char x)
      else Ascii.eqb c x
  | CSpace => Text.isspace c
  | CDigit => Text.isdigit c
  end.

Definition atom_match (ignorecase : bool) (ks : list cls) (c : ascii) : bool :=
  existsb (fun k => cls_match ignorecase k c) ks.

(** The part of [s] consumed when [rest] is what remains of it. *)
Definition taken (s rest : string) : string :=
  Text.take (String.length s - String.length rest) s.

(** Greedy repetition of an atom: every way to stop, the longest first. *)
Fixpoint star_match (ignorecase : bool) (ks : list cls) (s : string)
    (g : groups) : list (groups * string) :=
  match s with
  | String c s' =>
      if atom_match ignorecase ks c
      then star_match ignorecase ks s' g ++ [(g, s)]
      else [(g, s)]
  | EmptyString => [(g, s)]
  end.

(** All the ways [r] matches a prefix of [s], in the order in which the
    backtracking matcher of [re] tries them: each result is the groups
    captured and the text that remains. *)
Fixpoint rmatch (ignorecase : bool) (r : regex) (s : string) (g : groups)
    : list (groups * string) :=
  match r with
  | Eps => [(g, s)]
  | Atom ks =>
      match s with
      | String c s' => if atom_match ignorecase ks c then [(g, s')] else []
      | EmptyString => []
      end
  | Star ks => star_match ignorecase ks s g
  | Plus ks =>
      match s with
      | String c s' =>
          if atom_match ignorecase ks c then star_match ignorecase ks s' g
          else []
      | EmptyString => []
      end
  | Opt r1 => rmatch ignorecase r1 s g ++ [(g, s)]
  | Seq r1 r2 =>
      flat_map (fun m => rmatch ignorecase r2 (snd m) (fst m))
               (rmatch ignorecase r1 s g)
  | Alt r1 r2 => rmatch ignorecase r1 s g ++ rmatch ignorecase r2 s g
  | Group i r1 =>
      map (fun m => ((i, taken s (snd m)) :: fst m, snd m))
          (rmatch ignorecase r1 s g)
  end.

(** [re.match]: the first way the pattern matches at the start of [s]. *)
Definition match_here (ignorecase : bool) (r : regex) (s : string)
    : option groups :=
  match rmatch ignorecase r s [] with
  | m :: _ => Some (fst m)
  | [] => None
  end.

(** [re.search]: the match at the leftmost position that has one. *)
Fixpoint search (ignorecase : bool) (r : regex) (text : string)
    : option groups :=
  match match_here ignorecase r text with
  | Some g => Some g
  | None =>
      match text with
      | String _ text' => search ignorecase r text'
      | EmptyString => None
      end
  end.

(** A run of literal characters. *)
Fixpoint lit (s : string) : regex :=
  match s with
  | EmptyString => Eps
  | String c s' => Seq (Atom [CChar c]) (lit s')
  end.

(** [r1|r2|...] *)
Fixpoint alts (rs : list regex) : regex :=
  match rs with
  | [] => Atom []
  | [r] => r
  | r :: rs' => Alt r (alts rs')
  end.

End Re.

Import Re.

Declare Scope re_scope.
Delimit Scope re_scope with re.
Infix "+++" := Seq (at level 60, right associativity) : re_scope.

(** [\s*] and [[\d.]+] *)
Definition ws : regex := Star [CSpace].
Definition number : regex := Plus [CDigit; CChar "."].

(** [grams?|g|gallons?|gal|cups?|c|ounces?|oz|fl\s*oz] *)
Definition unit_re : regex :=
  alts [ (lit "gram" +++ Opt (lit "s"))%re; lit "g";
         (lit "gallon" +++ Opt (lit "s"))%re; lit "gal";
         (lit "cup" +++ Opt (lit "s"))%re; lit "c";
         (lit "ounce" +++ Opt (lit "s"))%re; lit "oz";
         (lit "fl" +++ ws +++ lit "oz")%re ].

(** [square\s*feet|sq\s*ft|sqft|cubic\s*feet|cu\s*ft] *)
Definition area_re : regex :=
  alts [ (lit "square" +++ ws +++ lit "feet")%re;
         (lit "sq" +++ ws +++ lit "ft")%re; lit "sqft";
         (lit "cubic" +++ ws +++ lit "feet")%re;
         (lit "cu" +++ ws +++ lit "ft")%re ].

(** The three patterns of lines 82-84. *)
Definition pattern1 : regex :=
  (lit "Concentrated Amount:" +++ ws +++ Group 1 number +++ ws
   +++ Group 2 unit_re)%re.

Definition pattern2 : regex :=
  (lit "Application Rate:" +++ ws +++ Group 1 number +++ ws
   +++ Group 2 unit_re)%re.

Definition pattern3 : regex :=
  (Group 1 number +++ ws +++ Group 2 unit_re +++ ws +++ lit "per" +++ ws
   +++ Group 3 number +++ ws +++ Group 4 area_re)%re.

Definition patterns : list regex := [pattern1; pattern2; pattern3].

Definition IGNORECASE : bool := true.

(** How an f-string prints [m.group(i)]. *)
Definition fmt_group (o : option string) : string :=
  match o with
  | Some s => s
  | None => "None"
  end.

(** The loop of lines 86-93 over the patterns that remain. *)
Fixpoint extract_loop (ps : list regex) (text : string) : string :=
  match ps with
  | [] => "Not found"
  | pattern :: ps' =>
      match Re.search IGNORECASE pattern text with
      | Some m =>
          let value := fmt_group (group 1 m) in
          let unit := fmt_group (group 2 m) in
          value ++ " " ++ unit
      | None => extract_loop ps' text
      end
  end.

(** [extract_usage_rate], lines 80-93. *)
Definition extract_usage_rate (text : string) (product_name : pyval) : string :=
  extract_loop patterns text.

(** ** Python values: truth, printing, dictionaries *)

Inductive pyexn := AttributeError | KeyError | TypeError.

Inductive result (A : Type) :=
| Ok (a : A)
| Raise (e : pyexn).
Arguments Ok {A} a.
Arguments Raise {A} e.

Definition bind {A B : Type} (m : result A) (k : A -> result B) : result B :=
  match m with
  | Ok a => k a
  | Raise e => Raise e
  end.

Notation "x <- m ;; k" := (bind m (fun x => k))
  (at level 61, m at next level, right associativity).

(** [isinstance(v, str)], [isinstance(v, dict)] *)
Definition is_str (v : pyval) : bool :=
  match v with PStr _ => true | _ => false end.

Definition is_dict (v : pyval) : bool :=
  match v with PDict _ => true | _ => false end.

(** [bool(v)] *)
Definition truthy (v : pyval) : bool :=
  match v with
  | PNone => false
  | PBool b => b
  | PInt z => negb (Z.eqb z 0)
  | PFloat f => float_nonzero f
  | PStr s => negb (String.eqb s "")
  | PList l => match l with [] => false | _ => true end
  | PDict d => match d with [] => false | _ => true end
  end.

Module Repr.

Definition squote : ascii := ascii_of_nat 39.
Definition dquote : ascii := ascii_of_nat 34.
Definition backslash : ascii := ascii_of_nat 92.

Fixpoint has_char (c : ascii) (s : string) : bool :=
  match s with
  | EmptyString => false
  | String d s' => Ascii.eqb c d || has_char c s'
  end.

Definition hex_digit (n : N) : ascii :=
  if (n <? 10)%N then ascii_of_N (48 + n) else ascii_of_N (87 + n).

(** A character that [repr] writes as an escape [\xhh]. *)
Definition unprintable (c : ascii) : bool :=
  let n := Text.code c in
  ((n <? 32) || (127 <=? n) && (n <=? 160) || (n =? 173))%N.

Definition escape_char (quote c : ascii) : string :=
  let n := Text.code c in
  if Ascii.eqb c quote || Ascii.eqb c backslash then String backslash (String c "")
  else if (n =? 9)%N then String backslash "t"
  else if (n =? 10)%N then String backslash "n"
  else if (n =? 13)%N then String backslash "r"
  else if unprintable c then
    String backslash (String "x" (String (hex_digit (n / 16))
                                         (String (hex_digit (n mod 16)) "")))
  else String c "".

Fixpoint escape (quote : ascii) (s : string) : string :=
  match s with
  | EmptyString => EmptyString
  | String c s' => escape_char quote c ++ escape quote s'
  end.

(** [repr(s)] of a string: single quotes, unless the text has a single
    quote and no double quote. *)
Definition repr_str (s : string) : string :=
  let quote := if has_char squote s && negb (has_char dquote s)
               then dquote else squote in
  String quote (escape quote s ++ String quote "").

Definition string_of_Z (z : Z) : string := NilZero.string_of_int (Z.to_int z).

End Repr.

(** [repr(v)] *)
Fixpoint py_repr (v : pyval) : string :=
  match v with
  | PNone => "None"
  | PBool true => "True"
  | PBool false => "False"
  | PInt z => Repr.string_of_Z z
  | PFloat f => float_repr f
  | PStr s => Repr.repr_str s
  | PList l => "[" ++ Text.join ", " (map py_repr l) ++ "]"
  | PDict d =>
      "{" ++ Text.join ", "
               (map (fun kv => Repr.repr_str (fst kv) ++ ": " ++ py_repr (snd kv)) d)
          ++ "}"
  end.

(** [str(v)], which is what an f-string field prints. *)
Definition py_str (v : pyval) : string :=
  match v with
  | PStr s => s
  | _ => py_repr v
  end.

Definition dict := list (string * pyval).

Fixpoint dict_get (k : string) (d : dict) : option pyval :=
  match d with
  | [] => None
  | (k', v) :: d' => if String.eqb k k' then Some v else dict_get k d'
  end.

(** [d.get(k, default)] *)
Definition get_default (k : string) (default : pyval) (d : dict) : pyval :=
  match dict_get k d with
  | Some v => v
  | None => default
  end.

(** [v[k]] where [v] is a dict. *)
Definition getitem (d : dict) (k : string) : result pyval :=
  match dict_get k d with
  | Some v => Ok v
  | None => Raise KeyError
  end.

(** [d[k] = v]: the value of an existing key is replaced in place, a new
    key goes last. *)
Fixpoint dict_set (k : string) (v : pyval) (d : dict) : dict :=
  match d with
  | [] => [(k, v)]
  | (k', v') :: d' =>
      if String.eqb k k' then (k, v) :: d' else (k', v') :: dict_set k v d'
  end.

(** [sep.join(items)]: every item must be a string. *)
Fixpoint str_items (items : list pyval) : result (list string) :=
  match items with
  | [] => Ok []
  | PStr s :: rest => ws <- str_items rest ;; Ok (s :: ws)
  | _ :: _ => Raise TypeError
  end.

Definition py_join (sep : string) (items : list pyval) : result string :=
  ws <- str_items items ;; Ok (Text.join sep ws).

(** ** The compliance evaluator *)

Record verdict := {
  product : pyval;
  compliant : bool;
  details : list string;
  actual_usage_rate : string;
  labeled_usage_rate : string;
  deviation : string
}.

(** The three locals a verdict is built in: [compliant], [details] and
    [labeled_usage_rates]. *)
Record vstate := {
  st_compliant : bool;
  st_details : list string;
  st_labeled : list pyval
}.

Definition init_state : vstate :=
  {| st_compliant := true; st_details := []; st_labeled := [] |}.

(** [compliant = False; details.append(msg)] *)
Definition fail_with (msg : string) (st : vstate) : vstate :=
  {| st_compliant := false;
     st_details := st_details st ++ [msg];
     st_labeled := st_labeled st |}.

(** [details.append(msg)] *)
Definition note (msg : string) (st : vstate) : vstate :=
  {| st_compliant := st_compliant st;
     st_details := st_details st ++ [msg];
     st_labeled := st_labeled st |}.

(** [labeled_usage_rates.append(v)] *)
Definition add_labeled (v : pyval) (st : vstate) : vstate :=
  {| st_compliant := st_compliant st;
     st_details := st_details st;
     st_labeled := st_labeled st ++ [v] |}.

(** [normalize_text(v) not in normalized_text] *)
Definition absent (v : pyval) (normalized_text : string) : bool :=
  negb (Text.contains (normalize_text v) normalized_text).

(** Lines 120-123 and 125-128: one labeled rate under its category. *)
Definition check_rate (normalized_text rate_type : string) (rate : pyval)
    (st : vstate) : vstate :=
  let st := add_labeled rate st in
  if is_str rate && absent rate normalized_text
  then fail_with ("Missing application rate for " ++ rate_type ++ ": "
                  ++ py_str rate) st
  else st.

(** Lines 115-133. *)
Definition check_application_rates (normalized_text : string) (p : dict)
    (st : vstate) : vstate :=
  let application_rates := get_default "Application Rates" (PDict []) p in
  match application_rates with
  | PDict items =>
      fold_left
        (fun st kv =>
           match snd kv with
           | PDict sub =>
               fold_left
                 (fun st skv => check_rate normalized_text (fst skv) (snd skv) st)
                 sub st
           | rate => check_rate normalized_text (fst kv) rate st
           end)
        items st
  | PStr s =>
      let st := add_labeled application_rates st in
      if absent application_rates normalized_text
      then fail_with ("Missing application rate: " ++ s) st
      else st
  | _ => st
  end.

(** Line 137. *)
Definition deviation_of (actual : string) (max_rate : pyval) : string :=
  "Actual: " ++ actual ++ ", Labeled: " ++ py_str max_rate.

(** Lines 136-143. *)
Definition check_max_rate (normalized_text actual : string) (p : dict)
    (st : vstate) : vstate :=
  let max_rate := get_default "Max Application Rate" PNone p in
  let deviation := deviation_of actual max_rate in
  if truthy max_rate then
    if is_str max_rate && absent max_rate normalized_text
    then fail_with ("Exceeded max application rate: " ++ py_str max_rate
                    ++ ", " ++ deviation) st
    else note ("Max application rate within limit: " ++ py_str max_rate
               ++ ", " ++ deviation) st
  else st.

(** Lines 149-151: one condition. The key of an object is a string. *)
Definition check_condition (normalized_text condition : string)
    (required : pyval) (st : vstate) : vstate :=
  if truthy required && is_str (PStr condition)
     && absent (PStr condition) normalized_text
  then fail_with ("Condition not met: " ++ condition) st
  else st.

(** Lines 146-151. *)
Definition check_conditions (normalized_text : string) (p : dict)
    (st : vstate) : vstate :=
  match get_default "Conditions" (PDict []) p with
  | PDict items =>
      fold_left (fun st kv => check_condition normalized_text (fst kv) (snd kv) st)
                items st
  | _ => st
  end.

(** Lines 157-160: one additional rule. Only a dict has [get]. *)
Definition check_rule (normalized_text : string) (rule : pyval) (st : vstate)
    : result vstate :=
  match rule with
  | PDict r =>
      let rule_text := get_default "rule_text" (PStr "") r in
      if is_str rule_text && absent rule_text normalized_text then
        description <- getitem r "description" ;;
        Ok (fail_with ("Rule not met: " ++ py_str description) st)
      else Ok st
  | _ => Raise AttributeError
  end.

Fixpoint check_rules (normalized_text : string) (rules : list pyval)
    (st : vstate) : result vstate :=
  match rules with
  | [] => Ok st
  | rule :: rest =>
      st' <- check_rule normalized_text rule st ;;
      check_rules normalized_text rest st'
  end.

(** Lines 154-160. *)
Definition check_additional_rules (normalized_text : string) (p : dict)
    (st : vstate) : result vstate :=
  match get_default "Additional Rules" (PList []) p with
  | PList rules => check_rules normalized_text rules st
  | _ => Ok st
  end.

(** Lines 108-169: the verdict of a product that the text mentions. *)
Definition build_verdict (extracted_text normalized_text : string) (p : dict)
    : result verdict :=
  name <- getitem p "Product" ;;
  let actual := extract_usage_rate extracted_text name in
  let st := check_application_rates normalized_text p init_state in
  let max_rate := get_default "Max Application Rate" PNone p in
  let st := check_max_rate normalized_text actual p st in
  let st := check_conditions normalized_text p st in
  st <- check_additional_rules normalized_text p st ;;
  name <- getitem p "Product" ;;
  labeled <- py_join ", " (st_labeled st) ;;
  Ok {| product := name;
        compliant := st_compliant st;
        details := st_details st;
        actual_usage_rate := actual;
        labeled_usage_rate := labeled;
        deviation := deviation_of actual max_rate |}.

(** What the body of the loop of line 98 does with one entry. *)
Inductive entry_outcome :=
| SkippedWithWarning (msg : string)   (* lines 99-101 *)
| SkippedSilently                     (* lines 102-105 *)
| NotMentioned                        (* the test of line 107 fails *)
| Evaluated (v : verdict)             (* line 162 *)
| Raised (e : pyexn).

Definition check_entry (extracted_text normalized_text : string)
    (entry : pyval) : entry_outcome :=
  match entry with
  | PDict p =>
      match getitem p "Product" with
      | Raise _ => SkippedSilently
      | Ok name =>
          let normalized_product_name := normalize_text name in
          if is_str (PStr normalized_product_name)
             && Text.contains normalized_product_name normalized_text then
            match build_verdict extracted_text normalized_text p with
            | Ok v => Evaluated v
            | Raise e => Raised e
            end
          else NotMentioned
      end
  | _ => SkippedWithWarning ("Invalid product entry: " ++ py_str entry)
  end.

(** The loop of lines 98-169: [results] is [compliance_results] so far,
    [warnings] what [st.warning] has shown so far. *)
Fixpoint check_loop (extracted_text normalized_text : string)
    (products : list pyval) (results : list verdict) (warnings : list string)
    : list string * result (list verdict) :=
  match products with
  | [] => (warnings, Ok results)
  | entry :: rest =>
      match check_entry extracted_text normalized_text entry with
      | SkippedWithWarning msg =>
          check_loop extracted_text normalized_text rest results (warnings ++ [msg])
      | SkippedSilently | NotMentioned =>
          check_loop extracted_text normalized_text rest results warnings
      | Evaluated v =>
          check_loop extracted_text normalized_text rest (results ++ [v]) warnings
      | Raised e => (warnings, Raise e)
      end
  end.

(** [check_compliance], lines 95-170: the warnings shown and the value
    returned or the exception raised. *)
Definition check_compliance (extracted_text : string) (products : list pyval)
    : list string * result (list verdict) :=
  let normalized_text := normalize_text (PStr extracted_text) in
  check_loop extracted_text normalized_text products [] [].

(** ** The catalog update of [add_rule] *)

(** The rule object of lines 259-263 and 269-273. *)
Definition new_rule (rule_description rule_text : string)
    (missing_application_rate : bool) : pyval :=
  PDict [("description", PStr rule_description);
         ("rule_text", PStr rule_text);
         ("missing_application_rate", PBool missing_application_rate)].

(** [v == s] for a string [s]. *)
Definition eq_str (v : pyval) (s : string) : bool :=
  match v with
  | PStr t => String.eqb t s
  | _ => false
  end.

(** Lines 257-263 on the entry found: the list is created when the key is
    absent, and the rule goes last in it. *)
Definition append_rule (rule : pyval) (p : dict) : result dict :=
  let p := match dict_get "Additional Rules" p with
           | Some _ => p
           | None => dict_set "Additional Rules" (PList []) p
           end in
  v <- getitem p "Additional Rules" ;;
  match v with
  | PList rules => Ok (dict_set "Additional Rules" (PList (rules ++ [rule])) p)
  | _ => Raise AttributeError
  end.

(** The loop of lines 254-264: [None] when it ends with [product_found]
    still false, the updated catalog when it breaks. Only a dict has
    [get]. *)
Fixpoint find_and_append (products : list pyval) (product_name : string)
    (rule : pyval) : result (option (list pyval)) :=
  match products with
  | [] => Ok None
  | entry :: rest =>
      match entry with
      | PDict p =>
          if eq_str (get_default "Product" PNone p) product_name then
            p' <- append_rule rule p ;; Ok (Some (PDict p' :: rest))
          else
            r <- find_and_append rest product_name rule ;;
            Ok (option_map (cons entry) r)
      | _ => Raise AttributeError
      end
  end.

(** Lines 251-275 of [add_rule], once the button is pressed: the catalog
    after the update. An exception is raised before anything is changed. *)
Definition add_rule (products : list pyval) (product_name rule_description
    rule_text : string) (missing_application_rate : bool)
    : result (list pyval) :=
  let rule := new_rule rule_description rule_text missing_application_rate in
  r <- find_and_append products product_name rule ;;
  match r with
  | Some products' => Ok products'
  | None =>
      let new_product := PDict [("Product", PStr product_name);
                                ("Additional Rules", PList [rule])] in
      Ok (products ++ [new_product])%list
  end.

(** ** Notions used in the statements *)

(** A word: not empty, and no white space in it. *)
Fixpoint nospace (s : string) : bool :=
  match s with
  | EmptyString => true
  | String c s' => negb (Text.isspace c) && nospace s'
  end.

Definition word (w : string) : Prop := w <> "" /\ nospace w = true.

(** The words of a text joined by single spaces. *)
Definition squeeze (s : string) : string := Text.join " " (Text.split s).

(** Group [i] is set by every match of [r]. *)
Fixpoint defines (i : nat) (r : regex) : bool :=
  match r with
  | Group j r1 => Nat.eqb i j || defines i r1
  | Seq r1 r2 => defines i r1 || defines i r2
  | Alt r1 r2 => defines i r1 && defines i r2
  | _ => false
  end.

(** Two texts that differ in the case of their letters only, and the same
    for the groups of two matches and for two results of [m.group(i)]
    and [re.search]. *)
Definition same_letters (s t : string) : Prop := Text.lower s = Text.lower t.

Definition same_groups (g h : groups) : Prop :=
  Forall2 (fun a b => fst a = fst b /\ same_letters (snd a) (snd b)) g h.

Definition same_match (m n : groups * string) : Prop :=
  same_groups (fst m) (fst n) /\ same_letters (snd m) (snd n).

Definition same_capture (a b : option string) : Prop :=
  match a, b with
  | Some x, Some y => same_letters x y
  | None, None => True
  | _, _ => False
  end.

Definition same_found (a b : option groups) : Prop :=
  match a, b with
  | Some g, Some h => same_groups g h
  | None, None => True
  | _, _ => False
  end.

(** The findings that count against a product are told by their label;
    [Max application rate within limit] is not one of them. *)
Definition failing_labels : list string :=
  ["Missing application rate"; "Exceeded max application rate";
   "Condition not met"; "Rule not met"].

Definition is_failing (msg : string) : bool :=
  existsb (fun label => Text.startswith label msg) failing_labels.

(** The flag says whether a failing finding has been recorded. *)
Definition consistent (st : vstate) : Prop :=
  st_compliant st = negb (existsb is_failing (st_details st)).

(** From [st] to [st'] a flag that is false stays false and the findings
    only grow at the end. *)
Definition extends (st st' : vstate) : Prop :=
  (st_compliant st = false -> st_compliant st' = false)
  /\ exists more, st_details st' = (st_details st ++ more)%list.

(** The catalog and the text of the end-to-end scenario. *)
Definition termidor : pyval :=
  PDict [("Product", PStr "Termidor SC");
         ("Max Application Rate", PStr "0.06% solution");
         ("Conditions", PDict [("soil must be moist", PBool true)])].

Definition termidor_ticket : string :=
  "Applied Termidor SC at 0.06% solution to dry soil".

Definition termidor_verdict : verdict :=
  {| product := PStr "Termidor SC";
     compliant := false;
     details :=
       ["Max application rate within limit: 0.06% solution, Actual: Not found, Labeled: 0.06% solution";
        "Condition not met: soil must be moist"];
     actual_usage_rate := "Not found";
     labeled_usage_rate := "";
     deviation := "Actual: Not found, Labeled: 0.06% solution" |}.

(** ** The findings of a verdict, said without the loop *)

(** The rates lines 117-130 append to [labeled_usage_rates], in order. *)
Definition labeled_rates (p : dict) : list pyval :=
  match get_default "Application Rates" (PDict []) p with
  | PDict items =>
      flat_map (fun kv => match snd kv with
                          | PDict sub => map snd sub
                          | rate => [rate]
                          end) items
  | PStr s => [PStr s]
  | _ => []
  end.

(** The finding of lines 121-123 and 126-128 for one rate, if any. *)
Definition rate_finding (normalized_text rate_type : string) (rate : pyval)
    : list string :=
  if is_str rate && absent rate normalized_text
  then ["Missing application rate for " ++ rate_type ++ ": " ++ py_str rate]
  else [].

Definition rate_findings (normalized_text : string) (p : dict) : list string :=
  match get_default "Application Rates" (PDict []) p with
  | PDict items =>
      flat_map (fun kv =>
                  match snd kv with
                  | PDict sub =>
                      flat_map (fun skv => rate_finding normalized_text
                                             (fst skv) (snd skv)) sub
                  | rate => rate_finding normalized_text (fst kv) rate
                  end) items
  | PStr s =>
      if absent (PStr s) normalized_text
      then ["Missing application rate: " ++ s] else []
  | _ => []
  end.

(** The message of lines 138-143, if any, and whether it is a failure. *)
Definition max_rate_finding (normalized_text actual : string) (p : dict)
    : option (bool * string) :=
  let max_rate := get_default "Max Application Rate" PNone p in
  let deviation := deviation_of actual max_rate in
  if truthy max_rate then
    if is_str max_rate && absent max_rate normalized_text
    then Some (true, "Exceeded max application rate: " ++ py_str max_rate
                     ++ ", " ++ deviation)
    else Some (false, "Max application rate within limit: " ++ py_str max_rate
                      ++ ", " ++ deviation)
  else None.

Definition condition_findings (normalized_text : string) (p : dict)
    : list string :=
  match get_default "Conditions" (PDict []) p with
  | PDict items =>
      flat_map (fun kv =>
                  if truthy (snd kv) && absent (PStr (fst kv)) normalized_text
                  then ["Condition not met: " ++ fst kv] else []) items
  | _ => []
  end.

(** The items of [Additional Rules] that line 156 visits. *)
Definition rules_of (p : dict) : list pyval :=
  match get_default "Additional Rules" (PList []) p with
  | PList rules => rules
  | _ => []
  end.

(** The test of line 158 on a rule object. *)
Definition rule_fails (normalized_text : string) (r : dict) : bool :=
  let rule_text := get_default "rule_text" (PStr "") r in
  is_str rule_text && absent rule_text normalized_text.

(** A rule that lines 157-160 get through without an exception: an object
    that passes, or that fails and has a [description]. *)
Definition rule_fine (normalized_text : string) (rule : pyval) : bool :=
  match rule with
  | PDict r =>
      negb (rule_fails normalized_text r)
      || match dict_get "description" r with Some _ => true | None => false end
  | _ => false
  end.

Definition rule_findings (normalized_text : string) (p : dict) : list string :=
  flat_map (fun rule =>
              match rule with
              | PDict r =>
                  if rule_fails normalized_text r
                  then ["Rule not met: "
                        ++ py_str (get_default "description" PNone r)]
                  else []
              | _ => []
              end) (rules_of p).

(** An entry that lines 108-169 get through without an exception. *)
Definition entry_fine (normalized_text : string) (p : dict) : bool :=
  forallb (rule_fine normalized_text) (rules_of p)
  && forallb is_str (labeled_rates p).

(** [compliant] false and [details], [labeled_usage_rates] extended. *)
Definition record_findings (findings : list string) (rates : list pyval)
    (st : vstate) : vstate :=
  {| st_compliant := st_compliant st
                     && match findings with [] => true | _ => false end;
     st_details := (st_details st ++ findings)%list;
     st_labeled := (st_labeled st ++ rates)%list |}.

(** The verdict of an entry, when there is one. *)
Definition verdict_of (extracted_text normalized_text : string) (p : dict)
    (name : pyval) : verdict :=
  let actual := extract_usage_rate extracted_text name in
  let max := max_rate_finding normalized_text actual p in
  {| product := name;
     compliant :=
       match rate_findings normalized_text p, max,
             condition_findings normalized_text p,
             rule_findings normalized_text p with
       | [], None, [], [] | [], Some (false, _), [], [] => true
       | _, _, _, _ => false
       end;
     details :=
       (rate_findings normalized_text p
        ++ match max with Some (_, msg) => [msg] | None => [] end
        ++ condition_findings normalized_text p
        ++ rule_findings normalized_text p)%list;
     actual_usage_rate := actual;
     labeled_usage_rate := Text.join ", " (map py_str (labeled_rates p));
     deviation :=
       deviation_of actual (get_default "Max Application Rate" PNone p) |}.

(** The entry and name of lines 99-107 when the text mentions the entry. *)
Definition mentioned (normalized_text : string) (entry : pyval)
    : option (dict * pyval) :=
  match entry with
  | PDict p =>
      match dict_get "Product" p with
      | Some name =>
          if Text.contains (normalize_text name) normalized_text
          then Some (p, name) else None
      | None => None
      end
  | _ => None
  end.

(** The mentioned entries of a catalog are all fine. *)
Definition catalog_fine (normalized_text : string) (products : list pyval)
    : bool :=
  forallb (fun entry => match mentioned normalized_text entry with
                        | Some (p, _) => entry_fine normalized_text p
                        | None => true
                        end) products.

Definition warning_of (entry : pyval) : string :=
  "Invalid product entry: " ++ py_str entry.

Definition warnings_of (products : list pyval) : list string :=
  map warning_of (filter (fun entry => negb (is_dict entry)) products).

Definition verdicts_of (extracted_text normalized_text : string)
    (products : list pyval) : list verdict :=
  flat_map (fun entry => match mentioned normalized_text entry with
                         | Some (p, name) =>
                             [verdict_of extracted_text normalized_text p name]
                         | None => []
                         end) products.

(** Two verdicts that tell the same about a product, the text of their
    findings apart. *)
Definition same_outcome (v w : verdict) : Prop :=
  product v = product w /\ compliant v = compliant w
  /\ labeled_usage_rate v = labeled_usage_rate w
  /\ List.length (details v) = List.length (details w).

(** Every string among them is in the text once normalized. *)
Definition all_present (normalized_text : string) (values : list pyval)
    : bool :=
  forallb (fun v => negb (is_str v && absent v normalized_text)) values.

(** The values line 148 tests: the texts of the required conditions. *)
Definition required_conditions (p : dict) : list pyval :=
  match get_default "Conditions" (PDict []) p with
  | PDict items =>
      map (fun kv => PStr (fst kv)) (filter (fun kv => truthy (snd kv)) items)
  | _ => []
  end.

(** The values line 157 reads from the rule objects. *)
Definition rule_texts (p : dict) : list pyval :=
  flat_map (fun rule => match rule with
                        | PDict r => [get_default "rule_text" (PStr "") r]
                        | _ => []
                        end) (rules_of p).

(** The value line 139 tests, when line 138 lets it through. *)
Definition max_rate_value (p : dict) : list pyval :=
  let max_rate := get_default "Max Application Rate" PNone p in
  if truthy max_rate then [max_rate] else [].

(** ** Texts without a number *)

(** A character that [[\d.]] accepts. *)
Definition numeric_char (c : ascii) : bool :=
  Text.isdigit c || Ascii.eqb c ".".

(** Some character of the text is a digit or a dot. *)
Fixpoint has_numeric (s : string) : bool :=
  match s with
  | EmptyString => false
  | String c s' => numeric_char c || has_numeric s'
  end.

(** Every class of the atom is [\d] or the dot. *)
Definition numeric_only (ks : list cls) : bool :=
  forallb (fun k => match k with
                    | CDigit => true
                    | CChar c => Ascii.eqb c "."
                    | CSpace => false
                    end) ks.

(** Every match of the pattern consumes a digit or a dot. *)
Fixpoint needs_number (r : regex) : bool :=
  match r with
  | Atom ks | Plus ks => numeric_only ks
  | Seq r1 r2 => needs_number r1 || needs_number r2
  | Alt r1 r2 => needs_number r1 && needs_number r2
  | Group _ r1 => needs_number r1
  | Eps | Star _ | Opt _ => false
  end.

(** ** Blank names and well-formed catalogs *)

(** Every character of the text is white space. *)
Fixpoint blank (s : string) : bool :=
  match s with
  | EmptyString => true
  | String c s' => Text.isspace c && blank s'
  end.

(** An entry [add_rule] can update: an object whose [Additional Rules],
    when present, is a list. *)
Definition entry_ok (entry : pyval) : bool :=
  match entry with
  | PDict p =>
      match dict_get "Additional Rules" p with
      | Some (PList _) | None => true
      | Some _ => false
      end
  | _ => false
  end.

(** [product.get('Product')] of an entry that is an object. *)
Definition product_of (entry : pyval) : pyval :=
  match entry with
  | PDict p => get_default "Product" PNone p
  | _ => PNone
  end.

(** The verdict of the entry [add_rule] creates for a new name, made of
    the name and one rule. *)
Definition new_entry_verdict (extracted_text name description rule_text : string)
    : verdict :=
  let ntext := normalize_text (PStr extracted_text) in
  let met := Text.contains (normalize_text (PStr rule_text)) ntext in
  {| product := PStr name;
     compliant := met;
     details := if met then [] else ["Rule not met: " ++ description];
     actual_usage_rate := extract_usage_rate extracted_text (PStr name);
     labeled_usage_rate := "";
     deviation := "Actual: " ++ extract_usage_rate extracted_text (PStr name)
                  ++ ", Labeled: None" |}.

(** ** The entities of a processed document *)

(** Lines 67-71 of [process_with_docai]: the dictionary built from the
    entities of the document, each given by its [type_] and its
    [mention_text]. *)
Definition collect_entities (entities : list (string * string)) : dict :=
  fold_left (fun extracted_entities entity =>
               dict_set (fst entity) (PStr (snd entity)) extracted_entities)
            entities [].

(** Lines 62-73: what [process_with_docai] returns for the document the
    service sent back. *)
Definition docai_result (text : string) (entities : list (string * string))
    : string * dict :=
  (text, collect_entities entities).

(** The text of the last entity of a type, if there is one. *)
Fixpoint last_mention (key : string) (entities : list (string * string))
    : option string :=
  match entities with
  | [] => None
  | (k, text) :: rest =>
      match last_mention key rest with
      | Some later => Some later
      | None => if String.eqb key k then Some text else None
      end
  end.

(** The keys of a dictionary, in order. *)
Definition keys (d : dict) : list string := map fst d.

(** ** The report on screen and in the PDF *)

(** One entry of [results], built at lines 305-311. *)
Record file_result := {
  file : string;
  technician : string;
  date : string;
  ocr_text : string;
  compliance_results : list verdict
}.

(** Why a file has no result: the text extraction raised, with the
    message of its exception, or the evaluation raised. *)
Inductive failure :=
| ExtractionFailed (message : string)
| EvaluationFailed (e : pyexn).

(** What the page shows, call by call. [st.error] is kept as the file
    name and the exception that line 315 prints. *)
#[warnings="-register-all"]
Inductive ui :=
| Header (s : string)
| Subheader (s : string)
| Write (s : string)
| Markdown (s : string)
| Expander (label : string) (body : list ui)
| TextBlock (s : string)
| Warning (s : string)
| Error (file_name : string) (cause : failure).

Definition yes_no (b : bool) : string := if b then "Yes" else "No".

(** Lines 180-188: one verdict on screen. *)
Definition display_verdict (compliance : verdict) : list ui :=
  ([Markdown ("### Product: " ++ py_str (product compliance));
    Write ("**Compliant:** " ++ yes_no (compliant compliance));
    Write "**Details:**"]
   ++ map (fun detail => Write ("- " ++ detail)) (details compliance)
   ++ [Write ("**Actual Usage Rate:** " ++ actual_usage_rate compliance);
       Write ("**Labeled Usage Rate:** " ++ labeled_usage_rate compliance);
       Write ("**Deviation:** " ++ deviation compliance);
       Write "---"])%list.

(** [display_results], lines 172-192. *)
Definition display_results (results : list file_result) : list ui :=
  flat_map
    (fun result =>
       [Header ("Results for " ++ file result);
        Write ("**Technician:** " ++ technician result);
        Write ("**Date:** " ++ date result);
        Subheader "Compliance Results"]
       ++ flat_map display_verdict (compliance_results result)
       ++ [Expander ("Show Extracted Text for " ++ file result)
                    [TextBlock (ocr_text result)]])%list
    results.

Inductive style := Title | Normal | Heading2 | BodyText | CustomStyle.

Inductive flowable :=
| Paragraph (text : string) (s : style)
| Spacer (width height : Z).

(** Lines 225-236: the flowables of one verdict. *)
Definition verdict_flowables (compliance : verdict) : list flowable :=
  ([Paragraph ("Product: " ++ py_str (product compliance)) Heading2;
    Paragraph ("Compliant: " ++ yes_no (compliant compliance)) BodyText;
    Paragraph ("Labeled Usage Rate: " ++ labeled_usage_rate compliance) BodyText;
    Paragraph ("Actual Usage Rate: " ++ actual_usage_rate compliance) BodyText;
    Paragraph ("Deviation: " ++ deviation compliance) BodyText]
   ++ map (fun detail => Paragraph ("- " ++ detail) CustomStyle)
          (details compliance)
   ++ [Spacer 1 12])%list.

(** Lines 210-236 of [generate_pdf]: the list handed to [doc.build]. *)
Definition pdf_flowables (data : list file_result) : list flowable :=
  flat_map
    (fun result =>
       [Paragraph ("Compliance Report for " ++ file result) Title;
        Spacer 1 12;
        Paragraph ("Technician: " ++ technician result ++ " | Date: "
                   ++ date result) Normal;
        Spacer 1 12]
       ++ flat_map verdict_flowables (compliance_results result))%list
    data.

(** The findings a page lists: the text of each line that starts with a
    hyphen and a space. *)
Definition written_findings (page : list ui) : list string :=
  flat_map (fun u => match u with
                     | Write s => if Text.startswith "- " s
                                  then [Text.drop 2 s] else []
                     | _ => []
                     end) page.

(** The findings a PDF lists: the text after the hyphen of each paragraph
    in the custom style. *)
Definition pdf_findings (flowables : list flowable) : list string :=
  flat_map (fun f => match f with
                     | Paragraph s CustomStyle => [Text.drop 2 s]
                     | _ => []
                     end) flowables.

(** The answers a page and a PDF give on compliance, in order. *)
Definition written_answers (page : list ui) : list string :=
  flat_map (fun u => match u with
                     | Write s => if Text.startswith "**Compliant:** " s
                                  then [Text.drop 15 s] else []
                     | _ => []
                     end) page.

Definition pdf_answers (flowables : list flowable) : list string :=
  flat_map (fun f => match f with
                     | Paragraph s BodyText =>
                         if Text.startswith "Compliant: " s
                         then [Text.drop 11 s] else []
                     | _ => []
                     end) flowables.

(** All the verdicts of a batch, file after file. *)
Definition all_verdicts (results : list file_result) : list verdict :=
  flat_map compliance_results results.

(** ** The batch of uploaded files *)

(** What [process_with_docai] does for one file: it returns the text and
    the entities of the document, or raises. *)
Inductive extraction :=
| Extracted (text : string) (entities : list (string * string))
| ExtractionRaised (message : string).

(** An uploaded file: its name and what the extraction of its bytes
    gives. *)
Record upload := {
  upload_name : string;
  upload_extraction : extraction
}.

(** The body of the loop of line 298 for one file: the calls to
    [st.warning] and [st.error] it makes, and the result it appends, if
    any. *)
Definition process_upload (technician_name service_date : string)
    (products : list pyval) (uploaded_file : upload)
    : list ui * list file_result :=
  match upload_extraction uploaded_file with
  | Extracted text entities =>
      let extracted_text := fst (docai_result text entities) in
      match check_compliance extracted_text products with
      | (warnings, Ok verdicts) =>
          (map Warning warnings,
           [ {| file := upload_name uploaded_file;
                technician := technician_name;
                date := service_date;
                ocr_text := extracted_text;
                compliance_results := verdicts |} ])
      | (warnings, Raise e) =>
          ((map Warning warnings
            ++ [Error (upload_name uploaded_file) (EvaluationFailed e)])%list,
           [])
      end
  | ExtractionRaised message =>
      ([Error (upload_name uploaded_file) (ExtractionFailed message)], [])
  end.

(** The loop of lines 297-316. *)
Fixpoint process_uploads (technician_name service_date : string)
    (products : list pyval) (uploaded_files : list upload)
    (shown : list ui) (results : list file_result)
    : list ui * list file_result :=
  match uploaded_files with
  | [] => (shown, results)
  | uploaded_file :: rest =>
      let step := process_upload technician_name service_date products
                    uploaded_file in
      process_uploads technician_name service_date products rest
        (shown ++ fst step)%list (results ++ snd step)%list
  end.

(** Lines 296-319 and 329-330 of [main]: what the page shows for the
    uploaded files, the button of the PDF left aside. [service_date] is
    the date already formatted by line 308. *)
Definition main_batch (technician_name service_date : string)
    (products : list pyval) (uploaded_files : list upload) : list ui :=
  let uploaded := match uploaded_files with [] => false | _ => true end in
  let named := negb (String.eqb technician_name "") in
  if uploaded && named then
    let run := process_uploads technician_name service_date products
                 uploaded_files [] [] in
    (fst run ++ display_results (snd run))%list
  else if uploaded && negb named then
    [Warning "Please enter a technician name."]
  else [].

(** A file that gets a result: its text was extracted and every entry of
    the catalog that the text mentions is fine. *)
Definition succeeds (products : list pyval) (uploaded_file : upload) : bool :=
  match upload_extraction uploaded_file with
  | Extracted text _ => catalog_fine (normalize_text (PStr text)) products
  | ExtractionRaised _ => false
  end.

(** The files for which an error is shown, in order. *)
Definition error_files (page : list ui) : list string :=
  flat_map (fun u => match u with
                     | Error file_name _ => [file_name]
                     | _ => []
                     end) page.

(** Case analysis on the 256 characters. *)
Ltac by_cases_on_char c :=
  destruct c as [[] [] [] [] [] [] [] []]; vm_compute; reflexivity.

(** * Properties *)

(** ** Characters *)


Lemma lower_char_idem (c : ascii) :
  Text.lower_char (Text.lower_char c) = Text.lower_char c.
Proof. by_cases_on_char c. Qed.

Lemma isspace_lower_char (c : ascii) :
  Text.isspace (Text.lower_char c) = Text.isspace c.
Proof. by_cases_on_char c. Qed.

Lemma isdigit_lower_char (c : ascii) :
  Text.isdigit (Text.lower_char c) = Text.isdigit c.
Proof. by_cases_on_char c. Qed.

(** ** [lower], [split] and [join] *)

Lemma lower_idem (s : string) : Text.lower (Text.lower s) = Text.lower s.
Proof.
  induction s as [|c s IH]; simpl; [reflexivity|].
  now rewrite lower_char_idem, IH.
Qed.

Lemma lower_app (s t : string) :
  Text.lower (s ++ t) = Text.lower s ++ Text.lower t.
Proof. induction s as [|c s IH]; simpl; [reflexivity | now rewrite IH]. Qed.

Lemma lower_join_space (ws : list string) :
  Text.lower (Text.join " " ws) = Text.join " " (map Text.lower ws).
Proof.
  induction ws as [|w ws IH]; [reflexivity|].
  destruct ws as [|w' ws]; [reflexivity|].
  change (Text.join " " (w :: w' :: ws)) with (w ++ " " ++ Text.join " " (w' :: ws)).
  rewrite !lower_app, IH. reflexivity.
Qed.

Lemma starts_word_lower (s : string) :
  Text.starts_word (Text.lower s) = Text.starts_word s.
Proof. destruct s; simpl; [reflexivity | now rewrite isspace_lower_char]. Qed.

Lemma split_lower (s : string) :
  Text.split (Text.lower s) = map Text.lower (Text.split s).
Proof.
  induction s as [|c s IH]; simpl; [reflexivity|].
  rewrite isspace_lower_char, starts_word_lower, IH.
  destruct (Text.isspace c); [reflexivity|].
  destruct (Text.starts_word s); [|reflexivity].
  destruct (Text.split s); reflexivity.
Qed.

Lemma split_starts_word (s : string) :
  Text.starts_word s = true ->
  exists c w ws, Text.split s = String c w :: ws.
Proof.
  destruct s as [|c s]; simpl; [discriminate|].
  destruct (Text.isspace c); [discriminate|]. intros _.
  destruct (Text.starts_word s); [destruct (Text.split s)|]; eauto.
Qed.

Lemma split_words (s : string) : Forall word (Text.split s).
Proof.
  induction s as [|c s IH]; simpl; [constructor|].
  destruct (Text.isspace c) eqn:Hc; [exact IH|].
  assert (Hw : forall w, nospace w = true -> word (String c w)).
  { intros w Hw. split; [discriminate|]. simpl. now rewrite Hc. }
  destruct (Text.starts_word s).
  - destruct (Text.split s) as [|w ws].
    + constructor; [now apply Hw | constructor].
    + inversion IH as [|? ? [_ Hn] Hws]; subst.
      constructor; [now apply Hw | assumption].
  - constructor; [now apply Hw | assumption].
Qed.

Lemma split_word_then_space (w : string) (c : ascii) (s : string) :
  word w -> Text.isspace c = true ->
  Text.split (w ++ String c s) = w :: Text.split s.
Proof.
  intros [Hne Hns] Hc. revert Hne Hns.
  induction w as [|a w IH]; [congruence|]. intros _ Hns.
  simpl in Hns. apply andb_true_iff in Hns as [Ha Hns].
  apply negb_true_iff in Ha.
  change (String a w ++ String c s) with (String a (w ++ String c s)).
  cbn [Text.split]. rewrite Ha.
  destruct w as [|b w].
  - simpl. now rewrite Hc.
  - assert (Hb : Text.isspace b = false).
    { simpl in Hns. apply andb_true_iff in Hns as [Hb _].
      now apply negb_true_iff in Hb. }
    rewrite IH by (discriminate || assumption).
    simpl. now rewrite Hb.
Qed.

Lemma split_one_word (w : string) : word w -> Text.split w = [w].
Proof.
  intros [Hne Hns]. revert Hne Hns.
  induction w as [|a w IH]; [congruence|]. intros _ Hns.
  simpl in Hns. apply andb_true_iff in Hns as [Ha Hns].
  apply negb_true_iff in Ha. cbn [Text.split]. rewrite Ha.
  destruct w as [|b w]; [reflexivity|].
  assert (Hb : Text.isspace b = false).
  { simpl in Hns. apply andb_true_iff in Hns as [Hb _].
    now apply negb_true_iff in Hb. }
  rewrite IH by (discriminate || assumption).
  simpl. now rewrite Hb.
Qed.

Lemma split_join_words (ws : list string) :
  Forall word ws -> Text.split (Text.join " " ws) = ws.
Proof.
  induction 1 as [|w ws Hw Hws IH]; [reflexivity|].
  destruct ws as [|w' ws]; [now apply split_one_word|].
  change (Text.join " " (w :: w' :: ws))
    with (w ++ String " " (Text.join " " (w' :: ws))).
  rewrite split_word_then_space by (assumption || reflexivity).
  now rewrite IH.
Qed.

Lemma normalize_text_idem (s : string) :
  normalize_text (PStr (normalize_text (PStr s))) = normalize_text (PStr s).
Proof.
  unfold normalize_text.
  rewrite lower_join_space, <- split_lower, lower_idem.
  now rewrite split_join_words by apply split_words.
Qed.

(** ** The transformation the specification describes *)

Section Squeeze.
Import NormalizeSpec.

Lemma join_cons_char (c : ascii) (w : string) (ws : list string) :
  Text.join " " (String c w :: ws) = String c (Text.join " " (w :: ws)).
Proof. destruct ws; reflexivity. Qed.

(** [squeeze] along the cases of [split]. *)
Lemma squeeze_space (c : ascii) (s : string) :
  Text.isspace c = true -> squeeze (String c s) = squeeze s.
Proof. intros Hc. unfold squeeze. simpl. now rewrite Hc. Qed.

Lemma squeeze_inside_word (c : ascii) (s : string) :
  Text.isspace c = false -> Text.starts_word s = true ->
  squeeze (String c s) = String c (squeeze s).
Proof.
  intros Hc Hs. unfold squeeze. simpl. rewrite Hc, Hs.
  destruct (split_starts_word s Hs) as (d & w & ws & ->).
  apply join_cons_char.
Qed.

Lemma squeeze_end_of_word (c : ascii) (s : string) :
  Text.isspace c = false -> Text.starts_word s = false ->
  squeeze (String c s) =
  String c (match Text.split s with [] => "" | _ => String " " (squeeze s) end).
Proof.
  intros Hc Hs. unfold squeeze. simpl. rewrite Hc, Hs.
  destruct (Text.split s); reflexivity.
Qed.

Lemma rstrip_cons_nonspace (c : ascii) (s : string) :
  Text.isspace c = false -> rstrip (String c s) = String c (rstrip s).
Proof. intros Hc. simpl. rewrite Hc. destruct (rstrip s); reflexivity. Qed.

Lemma rstrip_cons_space (s : string) :
  rstrip (String " " s) =
  match rstrip s with "" => "" | r => String " " r end.
Proof. simpl. destruct (rstrip s); reflexivity. Qed.

Lemma rstrip_collapse (s : string) :
  rstrip (collapse s) =
  if Text.starts_word s then squeeze s
  else match Text.split s with [] => "" | _ => String " " (squeeze s) end.
Proof.
  induction s as [|c s IH]; [reflexivity|].
  destruct (Text.isspace c) eqn:Hc.
  - cbn [collapse Text.starts_word]. rewrite Hc. cbn [negb].
    rewrite (squeeze_space c s Hc).
    replace (Text.split (String c s)) with (Text.split s)
      by (simpl; now rewrite Hc).
    destruct s as [|d s]; [reflexivity|].
    destruct (Text.isspace d) eqn:Hd.
    + rewrite IH. simpl Text.starts_word. now rewrite Hd.
    + rewrite rstrip_cons_space, IH. simpl Text.starts_word. rewrite Hd.
      cbn [negb].
      destruct (split_starts_word (String d s)) as (a & w & ws & Hsp).
      { simpl. now rewrite Hd. }
      unfold squeeze. rewrite Hsp, join_cons_char. reflexivity.
  - cbn [collapse Text.starts_word]. rewrite Hc. cbn [negb].
    rewrite (rstrip_cons_nonspace c _ Hc), IH.
    destruct (Text.starts_word s) eqn:Hs.
    + now rewrite squeeze_inside_word.
    + now rewrite squeeze_end_of_word.
Qed.

Lemma lstrip_collapse (s : string) : lstrip (collapse s) = collapse (lstrip s).
Proof.
  induction s as [|c s IH]; [reflexivity|].
  cbn [collapse lstrip]. destruct (Text.isspace c) eqn:Hc.
  - destruct s as [|d s]; [reflexivity|].
    destruct (Text.isspace d) eqn:Hd; [exact IH|].
    cbn [lstrip]. change (Text.isspace " ") with true. cbn iota. exact IH.
  - cbn [lstrip collapse]. now rewrite Hc.
Qed.

Lemma squeeze_lstrip (s : string) : squeeze (lstrip s) = squeeze s.
Proof.
  induction s as [|c s IH]; [reflexivity|].
  cbn [lstrip]. destruct (Text.isspace c) eqn:Hc; [|reflexivity].
  now rewrite squeeze_space.
Qed.

Lemma lstrip_starts_word (s : string) :
  lstrip s = "" \/ Text.starts_word (lstrip s) = true.
Proof.
  induction s as [|c s IH]; [now left|].
  cbn [lstrip]. destruct (Text.isspace c) eqn:Hc; [exact IH|].
  right. simpl. now rewrite Hc.
Qed.

Lemma squeeze_is_trim_collapse (s : string) : squeeze s = trim (collapse s).
Proof.
  unfold trim. rewrite lstrip_collapse, rstrip_collapse, <- (squeeze_lstrip s).
  destruct (lstrip_starts_word s) as [-> | ->]; reflexivity.
Qed.

End Squeeze.

(** ** The loop over the patterns *)

Lemma extract_loop_none (ps : list regex) (text : string) :
  (forall p, In p ps -> Re.search IGNORECASE p text = None) ->
  extract_loop ps text = "Not found".
Proof.
  induction ps as [|p ps IH]; intros H; [reflexivity|].
  simpl. rewrite (H p) by now left.
  apply IH. intros q Hq. apply H. now right.
Qed.

Lemma extract_loop_first (before : list regex) (p : regex)
    (after : list regex) (text : string) (m : groups) :
  (forall q, In q before -> Re.search IGNORECASE q text = None) ->
  Re.search IGNORECASE p text = Some m ->
  extract_loop (before ++ p :: after) text =
  fmt_group (group 1 m) ++ " " ++ fmt_group (group 2 m).
Proof.
  intros Hb Hp. induction before as [|q before IH]; simpl.
  - now rewrite Hp.
  - rewrite (Hb q) by now left.
    apply IH. intros q' Hq'. apply Hb. now right.
Qed.

(** ** Groups that every match of a pattern sets *)

Lemma group_cons_set (i j : nat) (s : string) (g : groups) :
  group i g <> None -> group i ((j, s) :: g) <> None.
Proof. simpl. destruct (Nat.eqb i j); [discriminate | trivial]. Qed.

Lemma star_match_groups ic ks s g m :
  In m (star_match ic ks s g) -> fst m = g.
Proof.
  induction s as [|c s IH]; simpl.
  - intros [<-|[]]. reflexivity.
  - destruct (atom_match ic ks c).
    + rewrite in_app_iff. intros [H|[<-|[]]]; [now apply IH | reflexivity].
    + intros [<-|[]]. reflexivity.
Qed.

Lemma rmatch_keeps_group (i : nat) ic (r : regex) :
  forall s g m, In m (rmatch ic r s g) ->
    group i g <> None \/ defines i r = true -> group i (fst m) <> None.
Proof.
  induction r as [|ks|ks|ks|r IH|r1 IH1 r2 IH2|r1 IH1 r2 IH2|j r IH];
    intros s g m Hin Hor; cbn [rmatch defines] in *.
  - destruct Hin as [<-|[]]. destruct Hor as [H|H]; [exact H | discriminate].
  - destruct Hor as [Hg|?]; [|discriminate].
    destruct s as [|c s]; [destruct Hin|].
    destruct (atom_match ic ks c); [|destruct Hin].
    destruct Hin as [<-|[]]. exact Hg.
  - destruct Hor as [Hg|?]; [|discriminate].
    now rewrite (star_match_groups _ _ _ _ _ Hin).
  - destruct Hor as [Hg|?]; [|discriminate].
    destruct s as [|c s]; [destruct Hin|].
    destruct (atom_match ic ks c); [|destruct Hin].
    now rewrite (star_match_groups _ _ _ _ _ Hin).
  - destruct Hor as [Hg|?]; [|discriminate].
    apply in_app_iff in Hin as [Hin|[<-|[]]]; [|exact Hg].
    apply (IH _ _ _ Hin). now left.
  - apply in_flat_map in Hin as (m1 & Hm1 & Hm).
    apply (IH2 _ _ _ Hm).
    destruct Hor as [Hg|Hd].
    + left. apply (IH1 _ _ _ Hm1). now left.
    + apply orb_true_iff in Hd as [Hd|Hd]; [|now right].
      left. apply (IH1 _ _ _ Hm1). now right.
  - apply in_app_iff in Hin as [Hin|Hin].
    + apply (IH1 _ _ _ Hin). destruct Hor as [?|Hd]; [now left|].
      apply andb_true_iff in Hd as [? _]. now right.
    + apply (IH2 _ _ _ Hin). destruct Hor as [?|Hd]; [now left|].
      apply andb_true_iff in Hd as [_ ?]. now right.
  - apply in_map_iff in Hin as (m1 & <- & Hm1). cbn [fst].
    destruct Hor as [Hg|Hd].
    + apply group_cons_set. apply (IH _ _ _ Hm1). now left.
    + apply orb_true_iff in Hd as [Hd|Hd].
      * simpl. now rewrite Hd.
      * apply group_cons_set. apply (IH _ _ _ Hm1). now right.
Qed.

Lemma match_here_defines (i : nat) ic (r : regex) (s : string) (m : groups) :
  defines i r = true -> match_here ic r s = Some m -> group i m <> None.
Proof.
  unfold match_here. intros Hd H.
  destruct (rmatch ic r s []) as [|m0 l] eqn:E; [discriminate|].
  injection H as <-. apply (rmatch_keeps_group i ic r s [] m0).
  - rewrite E. now left.
  - now right.
Qed.

Lemma search_defines (i : nat) ic (r : regex) (text : string) (m : groups) :
  defines i r = true -> Re.search ic r text = Some m -> group i m <> None.
Proof.
  intros Hd. induction text as [|c text IH]; cbn [Re.search].
  - destruct (match_here ic r "") eqn:E; [|discriminate].
    intros [= <-]. now apply (match_here_defines i ic r "").
  - destruct (match_here ic r (String c text)) eqn:E; [|exact IH].
    intros [= <-]. now apply (match_here_defines i ic r (String c text)).
Qed.

Lemma patterns_define_value_and_unit (p : regex) :
  In p patterns -> defines 1 p = true /\ defines 2 p = true.
Proof.
  intros [<-|[<-|[<-|[]]]]; split; reflexivity.
Qed.

(** ** Matching ignores the case of the text *)

Lemma cls_match_lower (k : cls) (c : ascii) :
  cls_match true k (Text.lower_char c) = cls_match true k c.
Proof.
  destruct k; simpl.
  - now rewrite lower_char_idem.
  - apply isspace_lower_char.
  - apply isdigit_lower_char.
Qed.

Lemma atom_match_lower (ks : list cls) (c : ascii) :
  atom_match true ks (Text.lower_char c) = atom_match true ks c.
Proof.
  unfold atom_match. induction ks as [|k ks IH]; simpl; [reflexivity|].
  now rewrite cls_match_lower, IH.
Qed.

Lemma atom_match_same (ks : list cls) (c d : ascii) :
  Text.lower_char c = Text.lower_char d ->
  atom_match true ks c = atom_match true ks d.
Proof.
  intros H. now rewrite <- (atom_match_lower ks c), H, atom_match_lower.
Qed.

Lemma same_letters_cons c d s t :
  same_letters (String c s) (String d t) <->
  Text.lower_char c = Text.lower_char d /\ same_letters s t.
Proof.
  unfold same_letters. simpl. split.
  - intros [= ? ?]. now split.
  - intros [-> ->]. reflexivity.
Qed.

Lemma same_letters_length s t :
  same_letters s t -> String.length s = String.length t.
Proof.
  revert t. induction s as [|c s IH]; intros [|d t] H; try discriminate H.
  - reflexivity.
  - apply same_letters_cons in H as [_ H]. simpl. f_equal. now apply IH.
Qed.

Lemma same_letters_take n s t :
  same_letters s t -> same_letters (Text.take n s) (Text.take n t).
Proof.
  revert s t. induction n as [|n IH]; intros s t H; [reflexivity|].
  destruct s as [|c s], t as [|d t]; try discriminate H; [reflexivity|].
  apply same_letters_cons in H as [Hc H]. simpl.
  apply same_letters_cons. split; [exact Hc | now apply IH].
Qed.

Lemma same_letters_taken s t s' t' :
  same_letters s t -> same_letters s' t' ->
  same_letters (taken s s') (taken t t').
Proof.
  intros H H'. unfold taken.
  rewrite (same_letters_length _ _ H), (same_letters_length _ _ H').
  now apply same_letters_take.
Qed.

Lemma star_match_same ks s t g h :
  same_letters s t -> same_groups g h ->
  Forall2 same_match (star_match true ks s g) (star_match true ks t h).
Proof.
  intros Hst Hg. revert t Hst.
  induction s as [|c s IH]; intros [|d t] Hst; try discriminate Hst.
  - repeat constructor; assumption.
  - pose proof Hst as Hcons.
    apply same_letters_cons in Hst as [Hc Hst]. simpl.
    rewrite (atom_match_same ks c d Hc).
    destruct (atom_match true ks d).
    + apply Forall2_app; [now apply IH|].
      repeat constructor; assumption.
    + repeat constructor; assumption.
Qed.

Lemma Forall2_flat_map {A B} (R : A -> A -> Prop) (Q : B -> B -> Prop)
    (f f' : A -> list B) (l l' : list A) :
  Forall2 R l l' ->
  (forall a a', R a a' -> Forall2 Q (f a) (f' a')) ->
  Forall2 Q (flat_map f l) (flat_map f' l').
Proof.
  intros H Hf. induction H; simpl; [constructor|].
  apply Forall2_app; [now apply Hf | assumption].
Qed.

Lemma rmatch_same (r : regex) :
  forall s t g h, same_letters s t -> same_groups g h ->
    Forall2 same_match (rmatch true r s g) (rmatch true r t h).
Proof.
  induction r as [|ks|ks|ks|r IH|r1 IH1 r2 IH2|r1 IH1 r2 IH2|j r IH];
    intros s t g h Hst Hg; cbn [rmatch].
  - repeat constructor; assumption.
  - destruct s as [|c s], t as [|d t]; try discriminate Hst; [constructor|].
    apply same_letters_cons in Hst as [Hc Hst].
    rewrite (atom_match_same ks c d Hc).
    destruct (atom_match true ks d); repeat constructor; assumption.
  - now apply star_match_same.
  - destruct s as [|c s], t as [|d t]; try discriminate Hst; [constructor|].
    apply same_letters_cons in Hst as [Hc Hst].
    rewrite (atom_match_same ks c d Hc).
    destruct (atom_match true ks d); [now apply star_match_same | constructor].
  - apply Forall2_app; [now apply IH|]. repeat constructor; assumption.
  - apply Forall2_flat_map with (R := same_match); [now apply IH1|].
    intros m n [Hmg Hms]. now apply IH2.
  - apply Forall2_app; [now apply IH1 | now apply IH2].
  - specialize (IH s t g h Hst Hg).
    induction IH as [|m n l l' [Hmg Hms] _ IHl]; simpl; constructor.
    + split; cbn [fst snd]; [|exact Hms].
      constructor; [|exact Hmg]. split; [reflexivity|].
      now apply same_letters_taken.
    + exact IHl.
Qed.

Lemma match_here_same (r : regex) (s t : string) :
  same_letters s t -> same_found (match_here true r s) (match_here true r t).
Proof.
  intros H. unfold match_here.
  destruct (rmatch_same r s t [] [] H (Forall2_nil _)) as [|m n l l' [Hg _] _];
    [exact I | exact Hg].
Qed.

Lemma search_same (r : regex) (s t : string) :
  same_letters s t -> same_found (Re.search true r s) (Re.search true r t).
Proof.
  revert t. induction s as [|c s IH]; intros [|d t] H; try discriminate H;
    cbn [Re.search]; pose proof (match_here_same r _ _ H) as Hm.
  - destruct (match_here true r ""); exact Hm.
  - destruct (match_here true r (String c s)), (match_here true r (String d t));
      try contradiction; [exact Hm|].
    apply IH. now apply same_letters_cons in H.
Qed.

Lemma group_same (i : nat) (g h : groups) :
  same_groups g h -> same_capture (group i g) (group i h).
Proof.
  induction 1 as [|[j x] [j' y] g h [Hj Hxy] _ IH]; [exact I|].
  cbn [fst snd] in *. subst j'. simpl.
  destruct (Nat.eqb i j); [exact Hxy | exact IH].
Qed.

Lemma fmt_group_same (a b : option string) :
  same_capture a b -> same_letters (fmt_group a) (fmt_group b).
Proof. destruct a, b; simpl; try contradiction; trivial. reflexivity. Qed.

Lemma extract_loop_same (ps : list regex) (s t : string) :
  same_letters s t -> same_letters (extract_loop ps s) (extract_loop ps t).
Proof.
  intros H. induction ps as [|p ps IH]; [reflexivity|]. cbn [extract_loop].
  pose proof (search_same p s t H) as Hs. unfold IGNORECASE.
  destruct (Re.search true p s) as [g|], (Re.search true p t) as [h|];
    try contradiction; [|exact IH].
  unfold same_letters. rewrite !lower_app.
  rewrite (fmt_group_same _ _ (group_same 1 g h Hs)).
  now rewrite (fmt_group_same _ _ (group_same 2 g h Hs)).
Qed.

(** ** Where a match can start *)

Lemma lit_must_start (l : string) (r : regex) (s : string) (g : groups) :
  Text.startswith (Text.lower l) (Text.lower s) = false ->
  rmatch true (Seq (lit l) r) s g = [].
Proof.
  revert s. induction l as [|c l IH]; intros s H; [discriminate H|].
  destruct s as [|a s]; [reflexivity|].
  cbn [lit rmatch atom_match existsb cls_match].
  cbn [Text.lower Text.startswith] in H.
  rewrite orb_false_r, Ascii.eqb_sym.
  destruct (Ascii.eqb (Text.lower_char c) (Text.lower_char a)); [|reflexivity].
  cbn [flat_map fst snd]. rewrite app_nil_r.
  exact (IH s H).
Qed.

Lemma search_skip ic (p : regex) (before rest : string) :
  (forall k, k < String.length before ->
             match_here ic p (Text.drop k (before ++ rest)) = None) ->
  Re.search ic p (before ++ rest) = Re.search ic p rest.
Proof.
  induction before as [|c before IH]; intros H; [reflexivity|].
  change (String c before ++ rest) with (String c (before ++ rest)).
  cbn [Re.search].
  pose proof (H 0 ltac:(simpl; lia)) as H0. cbn [Text.drop] in H0.
  change (String c before ++ rest) with (String c (before ++ rest)) in H0.
  rewrite H0.
  apply IH. intros k Hk. apply (H (S k)). simpl. lia.
Qed.

Lemma length_app (s t : string) :
  String.length (s ++ t) = String.length s + String.length t.
Proof. induction s as [|c s IH]; simpl; [reflexivity | now rewrite IH]. Qed.

Lemma taken_app (p rest : string) : taken (p ++ rest) rest = p.
Proof.
  unfold taken. rewrite length_app, Nat.add_sub.
  induction p as [|c p IH]; simpl; [reflexivity | now rewrite IH].
Qed.

Lemma pattern1_at_phrase (after : string) :
  match_here true pattern1 ("Concentrated Amount: 5 grams" ++ after)
  = Some [(2, "grams"); (1, "5")].
Proof.
  unfold match_here.
  assert (E : exists l, rmatch true pattern1 ("Concentrated Amount: 5 grams" ++ after) []
          = ([(2, taken ("grams" ++ after) after);
              (1, taken ("5" ++ (" grams" ++ after)) (" grams" ++ after))], after) :: l).
  { eexists. cbv -[taken]. reflexivity. }
  destruct E as [l ->]. cbn [fst].
  now rewrite !taken_app.
Qed.

Lemma extract_concentrated_amount (before after : string) (product_name : pyval) :
  (forall k, k < String.length before ->
     Text.startswith "concentrated amount:"
       (Text.lower (Text.drop k (before ++ "Concentrated Amount: 5 grams" ++ after)))
     = false) ->
  extract_usage_rate (before ++ "Concentrated Amount: 5 grams" ++ after) product_name
  = "5 grams".
Proof.
  intros H. unfold extract_usage_rate, patterns. cbn [extract_loop].
  unfold IGNORECASE.
  rewrite search_skip.
  - assert (E : Re.search true pattern1 ("Concentrated Amount: 5 grams" ++ after)
                = Some [(2, "grams"); (1, "5")]).
    { change ("Concentrated Amount: 5 grams" ++ after)
        with (String "C" ("oncentrated Amount: 5 grams" ++ after)).
      cbn [Re.search].
      change (String "C" ("oncentrated Amount: 5 grams" ++ after))
        with ("Concentrated Amount: 5 grams" ++ after).
      now rewrite pattern1_at_phrase. }
    rewrite E. reflexivity.
  - intros k Hk. unfold match_here, pattern1.
    rewrite (lit_must_start "Concentrated Amount:"); [reflexivity|].
    exact (H k Hk).
Qed.

(** ** The flag and the findings of a verdict under construction *)

Lemma consistent_init : consistent init_state.
Proof. reflexivity. Qed.

Lemma consistent_fail_with (msg : string) (st : vstate) :
  is_failing msg = true -> consistent (fail_with msg st).
Proof.
  intros H. unfold consistent, fail_with. cbn [st_compliant st_details].
  rewrite existsb_app. simpl. rewrite H, orb_true_r. reflexivity.
Qed.

Lemma consistent_note (msg : string) (st : vstate) :
  is_failing msg = false -> consistent st -> consistent (note msg st).
Proof.
  intros H Hst. unfold consistent, note in *. cbn [st_compliant st_details].
  rewrite existsb_app. simpl. now rewrite H, !orb_false_r.
Qed.

Lemma consistent_add_labeled (v : pyval) (st : vstate) :
  consistent st -> consistent (add_labeled v st).
Proof. trivial. Qed.

Lemma fold_left_invariant {A B} (P : A -> Prop) (f : A -> B -> A) (l : list B) :
  (forall a b, P a -> P (f a b)) -> forall a, P a -> P (fold_left f l a).
Proof. intros Hf. induction l; simpl; auto. Qed.

Lemma consistent_check_rate ntext rate_type rate st :
  consistent st -> consistent (check_rate ntext rate_type rate st).
Proof.
  intros H. unfold check_rate.
  destruct (is_str rate && absent rate ntext).
  - now apply consistent_fail_with.
  - now apply consistent_add_labeled.
Qed.

Lemma consistent_check_application_rates ntext p st :
  consistent st -> consistent (check_application_rates ntext p st).
Proof.
  intros H. unfold check_application_rates.
  destruct (get_default "Application Rates" (PDict []) p) as [| | | |s|l|items];
    try exact H.
  - destruct (absent (PStr s) ntext).
    + now apply consistent_fail_with.
    + now apply consistent_add_labeled.
  - apply fold_left_invariant; [|exact H].
    intros st' [k v] Hst'. cbn [fst snd].
    destruct v; try now apply consistent_check_rate.
    apply fold_left_invariant; [|exact Hst'].
    intros; now apply consistent_check_rate.
Qed.

Lemma informational_not_failing (text : string) :
  is_failing ("Max application rate within limit: " ++ text) = false.
Proof. reflexivity. Qed.

Lemma consistent_check_max_rate ntext actual p st :
  consistent st -> consistent (check_max_rate ntext actual p st).
Proof.
  intros H. unfold check_max_rate.
  destruct (truthy _); [|exact H].
  destruct (is_str _ && absent _ ntext).
  - now apply consistent_fail_with.
  - now apply consistent_note.
Qed.

Lemma consistent_check_conditions ntext p st :
  consistent st -> consistent (check_conditions ntext p st).
Proof.
  intros H. unfold check_conditions.
  destruct (get_default "Conditions" (PDict []) p); try exact H.
  apply fold_left_invariant; [|exact H].
  intros st' [k v] Hst'. unfold check_condition.
  destruct (truthy _ && _ && _); [now apply consistent_fail_with | exact Hst'].
Qed.

Lemma consistent_check_rule ntext rule st st' :
  consistent st -> check_rule ntext rule st = Ok st' -> consistent st'.
Proof.
  intros H. unfold check_rule.
  destruct rule; try discriminate.
  destruct (is_str _ && absent _ ntext).
  - destruct (getitem d "description"); [|discriminate].
    intros [= <-]. now apply consistent_fail_with.
  - now intros [= <-].
Qed.

Lemma consistent_check_rules ntext rules :
  forall st st', consistent st -> check_rules ntext rules st = Ok st' ->
                 consistent st'.
Proof.
  induction rules as [|rule rules IH]; intros st st' H; simpl.
  - now intros [= <-].
  - destruct (check_rule ntext rule st) eqn:E; [|discriminate]. simpl.
    apply IH. now apply (consistent_check_rule ntext rule st).
Qed.

Lemma consistent_check_additional_rules ntext p st st' :
  consistent st -> check_additional_rules ntext p st = Ok st' -> consistent st'.
Proof.
  intros H. unfold check_additional_rules.
  destruct (get_default "Additional Rules" (PList []) p);
    try (now intros [= <-]).
  now apply consistent_check_rules.
Qed.

Lemma build_verdict_consistent text ntext p v :
  build_verdict text ntext p = Ok v ->
  compliant v = negb (existsb is_failing (details v)).
Proof.
  unfold build_verdict.
  destruct (getitem p "Product") as [name|]; [|discriminate]. cbn [bind].
  destruct (check_additional_rules _ _ _) as [st|] eqn:E; [|discriminate].
  cbn [bind]. destruct (py_join _ _); [|discriminate]. cbn [bind].
  intros [= <-]. cbn [compliant details].
  apply (consistent_check_additional_rules _ _ _ _) in E; [exact E|].
  apply consistent_check_conditions, consistent_check_max_rate,
    consistent_check_application_rates, consistent_init.
Qed.

(** ** Where the verdicts of a run come from *)

Lemma check_loop_verdicts text ntext products :
  forall results warnings warnings' verdicts v,
    check_loop text ntext products results warnings = (warnings', Ok verdicts) ->
    In v verdicts ->
    In v results \/
    exists entry, In entry products /\ check_entry text ntext entry = Evaluated v.
Proof.
  induction products as [|entry rest IH]; intros results warnings warnings' verdicts v;
    cbn [check_loop].
  - intros [= _ <-]. now left.
  - destruct (check_entry text ntext entry) as [msg| | |v0|e] eqn:E;
      try discriminate; intros Hl Hv;
      destruct (IH _ _ _ _ _ Hl Hv) as [Hin|(entry' & Hin & He)];
      try (now left); try (right; exists entry'; split; [now right | exact He]).
    apply in_app_iff in Hin as [Hin|[<-|[]]]; [now left|].
    right. exists entry. split; [now left | exact E].
Qed.

Lemma check_entry_evaluated text ntext entry v :
  check_entry text ntext entry = Evaluated v ->
  exists p name, entry = PDict p /\ dict_get "Product" p = Some name
    /\ Text.contains (normalize_text name) ntext = true
    /\ build_verdict text ntext p = Ok v.
Proof.
  unfold check_entry. destruct entry as [| | | | | |p]; try discriminate.
  unfold getitem. destruct (dict_get "Product" p) as [name|] eqn:Hg; [|discriminate].
  cbn [is_str andb].
  destruct (Text.contains _ _) eqn:Hc; [|discriminate].
  destruct (build_verdict text ntext p) eqn:Hb; [|discriminate].
  intros [= <-]. exists p, name. auto.
Qed.

Lemma check_compliance_verdict text products warnings verdicts v :
  check_compliance text products = (warnings, Ok verdicts) ->
  In v verdicts ->
  exists p name, In (PDict p) products /\ dict_get "Product" p = Some name
    /\ Text.contains (normalize_text name) (normalize_text (PStr text)) = true
    /\ build_verdict text (normalize_text (PStr text)) p = Ok v.
Proof.
  unfold check_compliance. intros Hl Hv.
  destruct (check_loop_verdicts _ _ _ _ _ _ _ _ Hl Hv) as [[]|(entry & Hin & He)].
  destruct (check_entry_evaluated _ _ _ _ He) as (p & name & -> & H).
  exists p, name. split; [exact Hin | exact H].
Qed.

(** ** No check turns the flag back *)

Lemma extends_refl st : extends st st.
Proof. split; [trivial | exists []; now rewrite app_nil_r]. Qed.

Lemma extends_trans st1 st2 st3 :
  extends st1 st2 -> extends st2 st3 -> extends st1 st3.
Proof.
  intros [H1 [m1 E1]] [H2 [m2 E2]]. split; [auto|].
  exists (m1 ++ m2)%list. now rewrite E2, E1, app_assoc.
Qed.

Lemma extends_fail_with msg st : extends st (fail_with msg st).
Proof. split; [reflexivity | now exists [msg]]. Qed.

Lemma extends_note msg st : extends st (note msg st).
Proof. split; [trivial | now exists [msg]]. Qed.

Lemma extends_add_labeled v st : extends st (add_labeled v st).
Proof. split; [trivial | exists []; simpl; now rewrite app_nil_r]. Qed.

Lemma fold_left_extends {B} (f : vstate -> B -> vstate) (l : list B) :
  (forall st b, extends st (f st b)) -> forall st, extends st (fold_left f l st).
Proof.
  intros Hf. induction l as [|b l IH]; intros st; simpl; [apply extends_refl|].
  eapply extends_trans; [apply Hf | apply IH].
Qed.

Lemma extends_check_rate ntext rate_type rate st :
  extends st (check_rate ntext rate_type rate st).
Proof.
  unfold check_rate. destruct (is_str rate && absent rate ntext).
  - eapply extends_trans; [apply extends_add_labeled | apply extends_fail_with].
  - apply extends_add_labeled.
Qed.

Lemma extends_check_application_rates ntext p st :
  extends st (check_application_rates ntext p st).
Proof.
  unfold check_application_rates.
  destruct (get_default "Application Rates" (PDict []) p) as [| | | |s|l|items];
    try apply extends_refl.
  - destruct (absent (PStr s) ntext).
    + eapply extends_trans; [apply extends_add_labeled | apply extends_fail_with].
    + apply extends_add_labeled.
  - apply fold_left_extends. intros st' [k v]. cbn [fst snd].
    destruct v; try apply extends_check_rate.
    apply fold_left_extends. intros; apply extends_check_rate.
Qed.

Lemma extends_check_max_rate ntext actual p st :
  extends st (check_max_rate ntext actual p st).
Proof.
  unfold check_max_rate. destruct (truthy _); [|apply extends_refl].
  destruct (is_str _ && absent _ ntext);
    [apply extends_fail_with | apply extends_note].
Qed.

Lemma extends_check_conditions ntext p st :
  extends st (check_conditions ntext p st).
Proof.
  unfold check_conditions.
  destruct (get_default "Conditions" (PDict []) p); try apply extends_refl.
  apply fold_left_extends. intros st' [k v]. unfold check_condition.
  destruct (truthy _ && _ && _); [apply extends_fail_with | apply extends_refl].
Qed.

Lemma extends_check_rule ntext rule st st' :
  check_rule ntext rule st = Ok st' -> extends st st'.
Proof.
  unfold check_rule. destruct rule; try discriminate.
  destruct (is_str _ && absent _ ntext).
  - destruct (getitem d "description"); [|discriminate].
    intros [= <-]. apply extends_fail_with.
  - intros [= <-]. apply extends_refl.
Qed.

Lemma extends_check_rules ntext rules :
  forall st st', check_rules ntext rules st = Ok st' -> extends st st'.
Proof.
  induction rules as [|rule rules IH]; intros st st'; simpl.
  - intros [= <-]. apply extends_refl.
  - destruct (check_rule ntext rule st) eqn:E; [|discriminate]. simpl.
    intros H. eapply extends_trans; [exact (extends_check_rule _ _ _ _ E) | now apply IH].
Qed.

Lemma extends_check_additional_rules ntext p st st' :
  check_additional_rules ntext p st = Ok st' -> extends st st'.
Proof.
  unfold check_additional_rules.
  destruct (get_default "Additional Rules" (PList []) p);
    try (intros [= <-]; apply extends_refl).
  apply extends_check_rules.
Qed.

(** ** Entries the text does not mention *)

Lemma contains_empty_needle (hay : string) : Text.contains "" hay = true.
Proof. destruct hay; reflexivity. Qed.

Lemma contains_in_empty (needle : string) :
  needle <> "" -> Text.contains needle "" = false.
Proof. destruct needle; [congruence | reflexivity]. Qed.

Lemma check_loop_app text ntext (before after : list pyval) :
  forall results warnings,
    check_loop text ntext (before ++ after) results warnings =
    match check_loop text ntext before results warnings with
    | (warnings', Ok results') => check_loop text ntext after results' warnings'
    | (warnings', Raise e) => (warnings', Raise e)
    end.
Proof.
  induction before as [|entry before IH]; intros results warnings;
    [reflexivity|].
  cbn [app check_loop].
  destruct (check_entry text ntext entry); try apply IH. reflexivity.
Qed.

Lemma check_loop_skip text ntext (before after : list pyval) (entry : pyval) :
  check_entry text ntext entry = NotMentioned
  \/ check_entry text ntext entry = SkippedSilently ->
  forall results warnings,
    check_loop text ntext (before ++ entry :: after) results warnings =
    check_loop text ntext (before ++ after) results warnings.
Proof.
  intros He results warnings. rewrite !check_loop_app.
  destruct (check_loop text ntext before results warnings) as [w [r|e]];
    [|reflexivity].
  cbn [check_loop]. now destruct He as [-> | ->].
Qed.

Lemma check_entry_not_mentioned text ntext p name :
  dict_get "Product" p = Some name ->
  Text.contains (normalize_text name) ntext = false ->
  check_entry text ntext (PDict p) = NotMentioned.
Proof.
  intros Hg Hc. unfold check_entry, getitem. rewrite Hg. cbn [is_str andb].
  now rewrite Hc.
Qed.

Lemma check_loop_nothing_evaluated text ntext products :
  (forall entry, In entry products ->
     match check_entry text ntext entry with
     | Evaluated _ | Raised _ => False
     | _ => True
     end) ->
  forall results warnings,
    snd (check_loop text ntext products results warnings) = Ok results.
Proof.
  induction products as [|entry rest IH]; intros H results warnings;
    [reflexivity|].
  cbn [check_loop]. pose proof (H entry (or_introl eq_refl)) as He.
  destruct (check_entry text ntext entry); try contradiction;
    apply IH; intros; apply H; now right.
Qed.

Lemma build_verdict_product text ntext p v :
  build_verdict text ntext p = Ok v -> dict_get "Product" p = Some (product v).
Proof.
  unfold build_verdict, getitem.
  destruct (dict_get "Product" p) as [name|]; [|discriminate]. cbn [bind].
  destruct (check_additional_rules _ _ _); [|discriminate]. cbn [bind].
  destruct (py_join _ _); [|discriminate]. cbn [bind].
  now intros [= <-].
Qed.

Lemma check_loop_grows text ntext products :
  forall results warnings warnings' verdicts,
    check_loop text ntext products results warnings = (warnings', Ok verdicts) ->
    exists more, verdicts = (results ++ more)%list.
Proof.
  induction products as [|entry rest IH]; intros results warnings warnings' verdicts;
    cbn [check_loop].
  - intros [= _ <-]. exists []. now rewrite app_nil_r.
  - destruct (check_entry text ntext entry) as [msg| | |v|e];
      try discriminate; intros H; try (now apply IH in H).
    apply IH in H as [more ->]. exists (v :: more). now rewrite <- app_assoc.
Qed.

Lemma check_loop_empty_name text ntext products p name :
  In (PDict p) products ->
  dict_get "Product" p = Some name ->
  Text.contains (normalize_text name) ntext = true ->
  forall results warnings,
    snd (check_loop text ntext products results warnings) <> Ok [].
Proof.
  intros Hin Hg Hc.
  induction products as [|entry rest IH]; [destruct Hin|].
  intros results warnings. cbn [check_loop].
  destruct Hin as [-> | Hin].
  - unfold check_entry, getitem. rewrite Hg. cbn [is_str andb]. rewrite Hc.
    destruct (build_verdict text ntext p) as [v|e]; [|discriminate].
    destruct (check_loop text ntext rest (results ++ [v]) warnings)
      as [w [r|e]] eqn:E; [|discriminate].
    apply check_loop_grows in E as [more ->]. cbn [snd].
    intros [= H]. apply app_eq_nil in H as [H _].
    now apply app_eq_nil in H as [_ H].
  - destruct (check_entry text ntext entry); try (now apply IH).
    discriminate.
Qed.

(** ** The catalog update *)

Lemma find_and_append_none products name rule :
  Forall (fun entry => is_dict entry = true) products ->
  (forall p, In (PDict p) products -> get_default "Product" PNone p <> PStr name) ->
  find_and_append products name rule = Ok None.
Proof.
  induction 1 as [|entry rest Hd _ IH]; intros Hn; [reflexivity|].
  destruct entry as [| | | | | |p]; try discriminate Hd.
  cbn [find_and_append].
  assert (E : eq_str (get_default "Product" PNone p) name = false).
  { specialize (Hn p (or_introl eq_refl)).
    destruct (get_default "Product" PNone p); try reflexivity.
    simpl. apply String.eqb_neq. congruence. }
  rewrite E, IH; [reflexivity|].
  intros q Hq. apply Hn. now right.
Qed.

Lemma dict_get_set_same (k : string) (v : pyval) (d : dict) :
  dict_get k (dict_set k v d) = Some v.
Proof.
  induction d as [|[k' v'] d IH]; simpl.
  - now rewrite String.eqb_refl.
  - destruct (String.eqb k k') eqn:E; simpl.
    + now rewrite String.eqb_refl.
    + now rewrite E.
Qed.

Lemma dict_set_twice (k : string) (v w : pyval) (d : dict) :
  dict_set k w (dict_set k v d) = dict_set k w d.
Proof.
  induction d as [|[k' v'] d IH]; simpl.
  - now rewrite String.eqb_refl.
  - destruct (String.eqb k k') eqn:E; simpl.
    + now rewrite String.eqb_refl.
    + now rewrite E, IH.
Qed.

Lemma dict_set_absent (k : string) (v : pyval) (d : dict) :
  dict_get k d = None -> dict_set k v d = (d ++ [(k, v)])%list.
Proof.
  induction d as [|[k' v'] d IH]; simpl; [reflexivity|].
  destruct (String.eqb k k'); [discriminate|].
  intros H. now rewrite IH.
Qed.

Lemma append_rule_existing rule p rules :
  dict_get "Additional Rules" p = Some (PList rules) ->
  append_rule rule p =
  Ok (dict_set "Additional Rules" (PList (rules ++ [rule])) p).
Proof.
  intros Hr. unfold append_rule. rewrite Hr. unfold getitem. now rewrite Hr.
Qed.

Lemma append_rule_absent rule p :
  dict_get "Additional Rules" p = None ->
  append_rule rule p = Ok (dict_set "Additional Rules" (PList [rule]) p).
Proof.
  intros Hr. unfold append_rule. rewrite Hr. unfold getitem.
  rewrite dict_get_set_same. cbn [bind app]. now rewrite dict_set_twice.
Qed.

Lemma find_and_append_first before p p' after name rule :
  Forall (fun entry => is_dict entry = true) before ->
  (forall q, In (PDict q) before -> get_default "Product" PNone q <> PStr name) ->
  dict_get "Product" p = Some (PStr name) ->
  append_rule rule p = Ok p' ->
  find_and_append (before ++ PDict p :: after) name rule =
  Ok (Some (before ++ PDict p' :: after)%list).
Proof.
  intros Hd Hn Hp Hr. induction Hd as [|entry rest Hd _ IH].
  - cbn [app find_and_append]. unfold get_default. rewrite Hp.
    cbn [eq_str]. rewrite String.eqb_refl. now rewrite Hr.
  - destruct entry as [| | | | | |q]; try discriminate Hd.
    cbn [app find_and_append].
    assert (E : eq_str (get_default "Product" PNone q) name = false).
    { specialize (Hn q (or_introl eq_refl)).
      destruct (get_default "Product" PNone q); try reflexivity.
      simpl. apply String.eqb_neq. congruence. }
    rewrite E, IH; [reflexivity|].
    intros q' Hq'. apply Hn. now right.
Qed.

Lemma add_rule_unknown products name d t f :
  Forall (fun entry => is_dict entry = true) products ->
  (forall p, In (PDict p) products -> get_default "Product" PNone p <> PStr name) ->
  add_rule products name d t f =
  Ok (products ++ [PDict [("Product", PStr name);
                          ("Additional Rules", PList [new_rule d t f])]])%list.
Proof.
  intros Hd Hn. unfold add_rule. now rewrite find_and_append_none.
Qed.

Lemma add_rule_known before p p' after name d t f :
  Forall (fun entry => is_dict entry = true) before ->
  (forall q, In (PDict q) before -> get_default "Product" PNone q <> PStr name) ->
  dict_get "Product" p = Some (PStr name) ->
  append_rule (new_rule d t f) p = Ok p' ->
  add_rule (before ++ PDict p :: after) name d t f =
  Ok (before ++ PDict p' :: after)%list.
Proof.
  intros Hd Hn Hp Hr. unfold add_rule.
  now rewrite (find_and_append_first before p p' after name _ Hd Hn Hp Hr).
Qed.

Lemma find_and_append_non_dict products name rule :
  (forall p, In (PDict p) products -> get_default "Product" PNone p <> PStr name) ->
  (exists entry, In entry products /\ is_dict entry = false) ->
  find_and_append products name rule = Raise AttributeError.
Proof.
  intros Hn (bad & Hin & Hbad).
  induction products as [|entry rest IH]; [destruct Hin|].
  cbn [find_and_append].
  destruct entry as [| | | | | |p]; try reflexivity.
  assert (E : eq_str (get_default "Product" PNone p) name = false).
  { specialize (Hn p (or_introl eq_refl)).
    destruct (get_default "Product" PNone p); try reflexivity.
    simpl. apply String.eqb_neq. congruence. }
  rewrite E, IH; [reflexivity | |].
  - intros q Hq. apply Hn. now right.
  - destruct Hin as [<- | Hin]; [discriminate Hbad | exact Hin].
Qed.

(** With no entry of the name, one entry that is not an object is enough
    for the update to raise. *)
Lemma add_rule_non_dict products name d t f :
  (forall p, In (PDict p) products -> get_default "Product" PNone p <> PStr name) ->
  (exists entry, In entry products /\ is_dict entry = false) ->
  add_rule products name d t f = Raise AttributeError.
Proof.
  intros Hn Hbad. unfold add_rule. now rewrite find_and_append_non_dict.
Qed.

(** ** Rules with no text *)

Lemma check_rule_no_text ntext r st :
  dict_get "rule_text" r = None
  \/ (exists v, dict_get "rule_text" r = Some v /\ normalize_text v = "") ->
  check_rule ntext (PDict r) st = Ok st.
Proof.
  intros H. unfold check_rule, get_default.
  assert (E : forall v, normalize_text v = "" -> is_str v && absent v ntext = false).
  { intros v Hv. unfold absent. rewrite Hv, contains_empty_needle.
    apply andb_false_r. }
  destruct H as [-> | (v & -> & Hv)]; now rewrite E.
Qed.


(** ** [re.search] looks at every position *)

Lemma search_none_iff ic (p : regex) (text : string) :
  Re.search ic p text = None <->
  forall k, match_here ic p (Text.drop k text) = None.
Proof.
  induction text as [|c text IH]; cbn [Re.search].
  - split.
    + intros H k. destruct (match_here ic p "") eqn:E; [discriminate|].
      destruct k; exact E.
    + intros H. specialize (H 0). cbn [Text.drop] in H. now rewrite H.
  - split.
    + intros H k.
      destruct (match_here ic p (String c text)) eqn:E; [discriminate|].
      destruct k as [|k]; [exact E|]. cbn [Text.drop]. now apply IH.
    + intros H. pose proof (H 0) as H0. cbn [Text.drop] in H0. rewrite H0.
      apply IH. intros k. exact (H (S k)).
Qed.

(** ** The stages of one verdict *)

Lemma build_verdict_final text ntext p v :
  build_verdict text ntext p = Ok v ->
  exists name st,
    check_additional_rules ntext p
      (check_conditions ntext p
         (check_max_rate ntext (extract_usage_rate text name) p
            (check_application_rates ntext p init_state))) = Ok st
    /\ dict_get "Product" p = Some name
    /\ compliant v = st_compliant st /\ details v = st_details st
    /\ actual_usage_rate v = extract_usage_rate text PNone.
Proof.
  unfold build_verdict, getitem.
  destruct (dict_get "Product" p) as [name|]; [|discriminate]. cbn [bind].
  destruct (check_additional_rules _ _ _) as [st|] eqn:E; [|discriminate].
  cbn [bind]. destruct (py_join _ _); [|discriminate]. cbn [bind].
  intros [= <-]. exists name, st. auto 6.
Qed.

Lemma note_keeps_flag (msg : string) (st : vstate) :
  st_compliant (note msg st) = st_compliant st.
Proof. reflexivity. Qed.

Lemma failing_messages_are_failing (a b c : string) :
  is_failing ("Missing application rate for " ++ a ++ ": " ++ b) = true
  /\ is_failing ("Missing application rate: " ++ a) = true
  /\ is_failing ("Exceeded max application rate: " ++ a ++ ", " ++ c) = true
  /\ is_failing ("Condition not met: " ++ a) = true
  /\ is_failing ("Rule not met: " ++ a) = true.
Proof. repeat split. Qed.

(** The checks of the max rate and of the conditions leave the labeled
    rates as they are. *)
Lemma labeled_check_max_rate ntext actual p st :
  st_labeled (check_max_rate ntext actual p st) = st_labeled st.
Proof.
  unfold check_max_rate. destruct (truthy _); [|reflexivity].
  destruct (is_str _ && absent _ ntext); reflexivity.
Qed.

Lemma labeled_check_conditions ntext p st :
  st_labeled (check_conditions ntext p st) = st_labeled st.
Proof.
  unfold check_conditions.
  destruct (get_default "Conditions" (PDict []) p); try reflexivity.
  apply (fold_left_invariant (fun s => st_labeled s = st_labeled st));
    [|reflexivity].
  intros s [k v] Hs. unfold check_condition.
  destruct (truthy _ && _ && _); exact Hs.
Qed.

(** ** The embedding on a few inputs *)

Example split_example :
  Text.split "  Applied   Termidor SC " = ["Applied"; "Termidor"; "SC"].
Proof. reflexivity. Qed.

Example normalize_text_example :
  normalize_text (PStr (String (ascii_of_nat 9) "Applied   TERMIDOR  sc ")) =
  "applied termidor sc".
Proof. reflexivity. Qed.

Example search_example :
  Re.search IGNORECASE pattern3 "used 10 Grams per 5 cu ft" =
  Some [(4, "cu ft"); (3, "5"); (2, "Grams"); (1, "10")].
Proof. reflexivity. Qed.

(** The alternatives of the unit are tried in the order written: [g]
    comes before [gallons?]. *)
Example ordered_alternation_example :
  extract_usage_rate "application rate:1.5.2gallons" PNone = "1.5.2 g".
Proof. reflexivity. Qed.

(** An earlier [Concentrated Amount:] phrase is the one that is found; its
    unit may even be the first letter of the next word. *)
Example leftmost_match_example :
  extract_usage_rate "concentrated amount: 3 Concentrated Amount: 5 grams" PNone
  = "3 C".
Proof. reflexivity. Qed.

Example py_str_example :
  py_str (PList [PInt (-5); PStr "a"; PNone; PDict [("k", PBool true)]]) =
  "[-5, 'a', None, {'k': True}]".
Proof. reflexivity. Qed.

(** * The claims *)

(** C1. Every verdict that [check_compliance] returns has [compliant]
    false exactly when one of its [details] carries a failing label
    (Missing application rate, Exceeded max application rate, Condition
    not met, Rule not met). The message [Max application rate within
    limit] carries none of these labels and recording it leaves the flag
    as it was. Each of the four checks keeps a false flag false and only
    appends to the findings, so a verdict whose flag was false after any
    check is returned with [compliant] false. *)
Theorem compliant_iff_failing_detail :
  (forall (extracted_text : string) (products : list pyval)
          (warnings : list string) (verdicts : list verdict) (v : verdict),
      check_compliance extracted_text products = (warnings, Ok verdicts) ->
      In v verdicts ->
      (compliant v = false <->
       exists d, In d (details v) /\ is_failing d = true))
  /\ (forall (max_rate deviation : string) (st : vstate),
        let msg := "Max application rate within limit: " ++ max_rate ++ ", "
                   ++ deviation in
        is_failing msg = false
        /\ st_compliant (note msg st) = st_compliant st)
  /\ (forall (normalized_text actual : string) (p : dict) (st : vstate),
        extends st (check_application_rates normalized_text p st)
        /\ extends st (check_max_rate normalized_text actual p st)
        /\ extends st (check_conditions normalized_text p st)
        /\ (forall st', check_additional_rules normalized_text p st = Ok st' ->
                        extends st st'))
  /\ (forall (extracted_text normalized_text : string) (p : dict) (v : verdict)
             (name : pyval),
        build_verdict extracted_text normalized_text p = Ok v ->
        dict_get "Product" p = Some name ->
        let st1 := check_application_rates normalized_text p init_state in
        let st2 := check_max_rate normalized_text
                     (extract_usage_rate extracted_text name) p st1 in
        let st3 := check_conditions normalized_text p st2 in
        st_compliant st1 = false \/ st_compliant st2 = false
        \/ st_compliant st3 = false ->
        compliant v = false).
Proof.
  split; [|split; [|split]].
  - intros text products warnings verdicts v Hrun Hv.
    destruct (check_compliance_verdict _ _ _ _ _ Hrun Hv)
      as (p & name & _ & _ & _ & Hb).
    rewrite (build_verdict_consistent _ _ _ _ Hb), negb_false_iff.
    rewrite existsb_exists. reflexivity.
  - intros max_rate deviation st msg. split; reflexivity.
  - intros ntext actual p st. split; [|split; [|split]].
    + apply extends_check_application_rates.
    + apply extends_check_max_rate.
    + apply extends_check_conditions.
    + apply extends_check_additional_rules.
  - intros text ntext p v name Hb Hname st1 st2 st3 Hflip.
    destruct (build_verdict_final _ _ _ _ Hb)
      as (name' & st & Hst & Hn & Hc & _ & _).
    rewrite Hname in Hn. injection Hn as <-. rewrite Hc.
    fold st1 st2 st3 in Hst.
    pose proof (extends_check_max_rate ntext
                  (extract_usage_rate text name) p st1) as [H12 _].
    pose proof (extends_check_conditions ntext p st2) as [H23 _].
    pose proof (extends_check_additional_rules ntext p st3 st Hst) as [H3 _].
    fold st2 in H12. fold st3 in H23.
    destruct Hflip as [H|[H|H]]; auto.
Qed.

Lemma compliant_iff_failing_detail_termidor :
  compliant termidor_verdict = false <->
  exists d, In d (details termidor_verdict) /\ is_failing d = true.
Proof.
  apply (proj1 compliant_iff_failing_detail termidor_ticket [termidor] []
           [termidor_verdict] termidor_verdict).
  - vm_compute. reflexivity.
  - left. reflexivity.
Defined.

(** C2. The evaluator does not survive every malformed entry. A labeled
    rate that is a number makes the join of line 167 raise [TypeError];
    an item of [Additional Rules] that is not an object makes line 157
    raise [AttributeError]; a rule whose text is absent from the ticket
    and that has no [description] makes line 160 raise [KeyError]. In
    each run no verdict list is returned. The first holds for every
    text, every product the text mentions and every rate that is
    neither a string nor an object. *)
Theorem malformed_entry_raises :
  check_compliance "Applied Termidor SC"
    [PDict [("Product", PStr "Termidor SC");
            ("Application Rates", PDict [("Dilution", PInt 2)])]]
  = ([], Raise TypeError)
  /\ check_compliance "Applied Termidor SC"
       [PDict [("Product", PStr "Termidor SC");
               ("Additional Rules", PList [PStr "wear gloves"])]]
     = ([], Raise AttributeError)
  /\ check_compliance "Applied Termidor SC"
       [PDict [("Product", PStr "Termidor SC");
               ("Additional Rules",
                PList [PDict [("rule_text", PStr "wear gloves")]])]]
     = ([], Raise KeyError)
  /\ (forall (extracted_text : string) (p : dict) (name : pyval)
             (category : string) (rate : pyval),
        dict_get "Product" p = Some name ->
        Text.contains (normalize_text name)
                      (normalize_text (PStr extracted_text)) = true ->
        dict_get "Application Rates" p = Some (PDict [(category, rate)]) ->
        is_str rate = false -> is_dict rate = false ->
        dict_get "Additional Rules" p = None ->
        check_compliance extracted_text [PDict p] = ([], Raise TypeError)).
Proof.
  split; [reflexivity|]. split; [reflexivity|]. split; [reflexivity|].
  intros text p name category rate Hname Hin Hrates Hs Hd Hrules.
  unfold check_compliance. cbn [check_loop].
  unfold check_entry, getitem. rewrite Hname. cbn [is_str andb]. rewrite Hin.
  unfold build_verdict, getitem. rewrite Hname. cbn [bind].
  unfold check_additional_rules, get_default at 1. rewrite Hrules.
  cbn [check_rules bind].
  rewrite labeled_check_conditions, labeled_check_max_rate.
  unfold check_application_rates, get_default. rewrite Hrates.
  destruct rate; try discriminate Hs; try discriminate Hd; reflexivity.
Qed.

(** C3. An entry that is not an object is skipped with a warning that
    prints it, but an object without a [Product] key is skipped with no
    warning at all: the run over it returns no verdict and shows
    nothing, and in any catalog such an entry can be removed without
    changing the warnings or the result. *)
Theorem missing_product_skipped_silently :
  check_compliance "Applied Termidor SC"
    [PDict [("Max Application Rate", PStr "0.06% solution")]]
  = ([], Ok [])
  /\ check_compliance "Applied Termidor SC" [PStr "Termidor SC"]
     = (["Invalid product entry: Termidor SC"], Ok [])
  /\ (forall (extracted_text : string) (before after : list pyval) (p : dict),
        dict_get "Product" p = None ->
        check_compliance extracted_text (before ++ PDict p :: after)
        = check_compliance extracted_text (before ++ after))
  /\ (forall (extracted_text : string) (entry : pyval),
        is_dict entry = false ->
        check_compliance extracted_text [entry]
        = (["Invalid product entry: " ++ py_str entry], Ok [])).
Proof.
  split; [reflexivity|]. split; [reflexivity|]. split.
  - intros text before after p Hg. unfold check_compliance.
    apply check_loop_skip. right. unfold check_entry, getitem. now rewrite Hg.
  - intros text entry Hd. destruct entry; try reflexivity. discriminate Hd.
Qed.

(** C4, as stated, fails: the empty product name is a substring of the
    empty text, so this one-entry catalog yields a verdict for the empty
    document. *)
Lemma empty_text_empty_name_verdict :
  [PDict [("Product", PStr "")]] <> []
  /\ check_compliance "" [PDict [("Product", PStr "")]]
     = ([], Ok [ {| product := PStr "";
                    compliant := true;
                    details := [];
                    actual_usage_rate := "Not found";
                    labeled_usage_rate := "";
                    deviation := "Actual: Not found, Labeled: None" |} ]).
Proof. split; [discriminate | reflexivity]. Qed.

(** C4, amended. The empty document yields the empty verdict list when
    no entry of the catalog has a [Product] that normalizes to the empty
    string, and only then. For every document, an entry whose normalized product
    name is not a substring of the normalized text can be removed from
    the catalog without changing the warnings or the result, and every
    verdict returned is for an entry whose normalized name is a substring
    of the normalized text. *)
Theorem unmentioned_entry_no_verdict :
  (forall products : list pyval,
      snd (check_compliance "" products) = Ok [] <->
      (forall p name, In (PDict p) products ->
                      dict_get "Product" p = Some name ->
                      normalize_text name <> ""))
  /\ (forall (extracted_text : string) (before after : list pyval)
             (p : dict) (name : pyval),
        dict_get "Product" p = Some name ->
        Text.contains (normalize_text name)
                      (normalize_text (PStr extracted_text)) = false ->
        check_compliance extracted_text (before ++ PDict p :: after)
        = check_compliance extracted_text (before ++ after))
  /\ (forall (extracted_text : string) (products : list pyval)
             (warnings : list string) (verdicts : list verdict) (v : verdict),
        check_compliance extracted_text products = (warnings, Ok verdicts) ->
        In v verdicts ->
        exists p, In (PDict p) products
                  /\ dict_get "Product" p = Some (product v)
                  /\ Text.contains (normalize_text (product v))
                       (normalize_text (PStr extracted_text)) = true).
Proof.
  split; [|split].
  - intros products. split.
    { intros H p name Hin Hg Hempty.
      apply (check_loop_empty_name "" "" products p name Hin Hg) with [] [];
        [|exact H].
      now rewrite Hempty. }
    intros Hne. unfold check_compliance.
    apply check_loop_nothing_evaluated. intros entry Hin.
    destruct entry as [| | | | | |p]; try exact I.
    unfold check_entry, getitem.
    destruct (dict_get "Product" p) as [name|] eqn:Hg; [|exact I].
    change (normalize_text (PStr "")) with "". cbn [is_str andb].
    now rewrite (contains_in_empty _ (Hne p name Hin Hg)).
  - intros text before after p name Hg Hc. unfold check_compliance.
    apply check_loop_skip. left.
    now apply (check_entry_not_mentioned _ _ p name).
  - intros text products warnings verdicts v Hrun Hv.
    destruct (check_compliance_verdict _ _ _ _ _ Hrun Hv)
      as (p & name & Hin & Hg & Hc & Hb).
    pose proof (build_verdict_product _ _ _ _ Hb) as Hp.
    rewrite Hg in Hp. injection Hp as ->.
    exists p. auto.
Qed.

Lemma unmentioned_entry_no_verdict_termidor :
  snd (check_compliance "" [termidor]) = Ok [].
Proof.
  apply (proj2 (proj1 unmentioned_entry_no_verdict [termidor])).
  intros p name [H|[]] Hg. injection H as <-.
  injection Hg as <-. discriminate.
Defined.

(** C5, as stated, fails: this text contains both the phrase
    [Concentrated Amount: 5 grams] and the phrase [10 oz per 100 sq ft],
    and the extractor returns [7 oz], the value and unit of the leftmost
    match of the first pattern, not [5 grams]. *)
Lemma extract_usage_rate_earlier_amount_wins :
  Text.contains "Concentrated Amount: 5 grams"
    "Concentrated Amount: 7 oz. 10 oz per 100 sq ft. Concentrated Amount: 5 grams"
  = true
  /\ Text.contains "10 oz per 100 sq ft"
       "Concentrated Amount: 7 oz. 10 oz per 100 sq ft. Concentrated Amount: 5 grams"
     = true
  /\ extract_usage_rate
       "Concentrated Amount: 7 oz. 10 oz per 100 sq ft. Concentrated Amount: 5 grams"
       PNone
     = "7 oz"
  /\ extract_usage_rate
       "Concentrated Amount: 7 oz. 10 oz per 100 sq ft. Concentrated Amount: 5 grams"
       PNone
     <> "5 grams".
Proof.
  split; [reflexivity|]. split; [reflexivity|]. split; [reflexivity|].
  discriminate.
Qed.

(** C5, amended. The extractor returns [Not found] when none of the three
    patterns matches at any position of the text. Otherwise the first
    pattern of the list that matches somewhere decides: the result is its
    value group, one space, its unit group. Changing the case of letters
    in the text changes nothing but the case of letters in the result. A
    text in which [Concentrated Amount: 5 grams] is the first occurrence
    of [Concentrated Amount:], in any letter case, yields [5 grams],
    whatever stands before and after it, and so when [10 oz per 100 sq
    ft] stands before it. *)
Theorem extract_usage_rate_first_pattern :
  (forall (p : regex) (text : string),
      Re.search IGNORECASE p text = None <->
      forall k, match_here IGNORECASE p (Text.drop k text) = None)
  /\ (forall (text : string) (product_name : pyval),
        (forall p, In p patterns -> Re.search IGNORECASE p text = None) ->
        extract_usage_rate text product_name = "Not found")
  /\ (forall (text : string) (product_name : pyval)
             (before : list regex) (p : regex) (after : list regex) (m : groups),
        patterns = (before ++ p :: after)%list ->
        (forall q, In q before -> Re.search IGNORECASE q text = None) ->
        Re.search IGNORECASE p text = Some m ->
        exists value unit,
          group 1 m = Some value /\ group 2 m = Some unit
          /\ extract_usage_rate text product_name = value ++ " " ++ unit)
  /\ (forall (text text' : string) (product_name : pyval),
        same_letters text text' ->
        same_letters (extract_usage_rate text product_name)
                     (extract_usage_rate text' product_name))
  /\ (forall (before after : string) (product_name : pyval),
        (forall k, k < String.length before ->
           Text.startswith "concentrated amount:"
             (Text.lower
                (Text.drop k (before ++ "Concentrated Amount: 5 grams" ++ after)))
           = false) ->
        extract_usage_rate (before ++ "Concentrated Amount: 5 grams" ++ after)
                           product_name
        = "5 grams")
  /\ (forall product_name : pyval,
        extract_usage_rate
          "Spread 10 oz per 100 sq ft. Concentrated Amount: 5 grams" product_name
        = "5 grams"
        /\ extract_usage_rate
             "Concentrated Amount: 5 grams, spread 10 oz per 100 sq ft" product_name
           = "5 grams"
        /\ extract_usage_rate "Spread 10 oz per 100 sq ft." product_name
           = "10 oz").
Proof.
  split; [|split; [|split; [|split; [|split]]]].
  - intros p text. apply search_none_iff.
  - intros text product_name H. now apply extract_loop_none.
  - intros text product_name before p after m Hps Hb Hp.
    assert (Hin : In p patterns).
    { rewrite Hps. apply in_or_app. right. now left. }
    destruct (patterns_define_value_and_unit p Hin) as [H1 H2].
    pose proof (search_defines 1 _ _ _ _ H1 Hp) as G1.
    pose proof (search_defines 2 _ _ _ _ H2 Hp) as G2.
    destruct (group 1 m) as [value|] eqn:E1; [|congruence].
    destruct (group 2 m) as [unit|] eqn:E2; [|congruence].
    exists value, unit. repeat split.
    unfold extract_usage_rate. rewrite Hps.
    rewrite (extract_loop_first before p after text m Hb Hp).
    now rewrite E1, E2.
  - intros text text' product_name H. now apply extract_loop_same.
  - intros before after product_name H. now apply extract_concentrated_amount.
  - intros product_name. repeat split.
Qed.

Lemma extract_usage_rate_first_pattern_per_area_earlier :
  extract_usage_rate "10 oz per 100 sq ft. Concentrated Amount: 5 grams" PNone
  = "5 grams".
Proof.
  apply (proj1 (proj2 (proj2 (proj2 (proj2 extract_usage_rate_first_pattern))))
           "10 oz per 100 sq ft. " "" PNone).
  intros k Hk.
  do 21 (destruct k as [|k]; [reflexivity|]).
  simpl in Hk. lia.
Defined.

(** C6. The end-to-end scenario: the Termidor SC entry against the ticket
    [Applied Termidor SC at 0.06% solution to dry soil] gives exactly one
    verdict, not compliant, whose details include the unmet condition and
    the informational message on the max rate with [Actual: Not found]. *)
Theorem termidor_scenario :
  exists v : verdict,
    check_compliance termidor_ticket [termidor] = ([], Ok [v])
    /\ compliant v = false
    /\ In "Condition not met: soil must be moist" (details v)
    /\ In "Max application rate within limit: 0.06% solution, Actual: Not found, Labeled: 0.06% solution"
          (details v).
Proof.
  exists termidor_verdict. split; [reflexivity|].
  split; [reflexivity|]. split; [right; left | left]; reflexivity.
Qed.

(** C7, as stated, fails for a catalog that holds an entry that is not an
    object: the loop of line 254 calls [get] on it and the update raises
    instead of appending an entry. *)
Lemma add_rule_non_dict_entry_raises :
  add_rule [PStr "Termidor SC"] "Demand CS" "Gloves" "wear gloves" false
  = Raise AttributeError.
Proof. reflexivity. Qed.

(** C7, amended. In a catalog whose entries are all objects, none of
    which has [Product] equal to the name: adding a rule appends exactly
    one entry, made of the name and a one-rule [Additional Rules] list;
    adding a second rule for the same name puts it after the first in
    that list and appends no further entry; the entries that were there
    are unchanged. More generally the rule goes to the end of the list of
    the first entry whose [Product] equals the name, a list that is
    created as the last key of that entry when it has none. *)
Theorem add_rule_new_then_append :
  forall (products : list pyval) (name d1 t1 d2 t2 : string) (f1 f2 : bool),
    Forall (fun entry => is_dict entry = true) products ->
    (forall p, In (PDict p) products ->
               get_default "Product" PNone p <> PStr name) ->
    add_rule products name d1 t1 f1
    = Ok (products ++ [PDict [("Product", PStr name);
                              ("Additional Rules", PList [new_rule d1 t1 f1])]])%list
    /\ (products' <- add_rule products name d1 t1 f1 ;;
        add_rule products' name d2 t2 f2)
       = Ok (products ++ [PDict [("Product", PStr name);
                                 ("Additional Rules",
                                  PList [new_rule d1 t1 f1; new_rule d2 t2 f2])]])%list
    /\ (forall (p : dict) (after : list pyval) (rules : list pyval),
          dict_get "Product" p = Some (PStr name) ->
          dict_get "Additional Rules" p = Some (PList rules) ->
          add_rule (products ++ PDict p :: after) name d1 t1 f1
          = Ok (products ++
                PDict (dict_set "Additional Rules"
                                (PList (rules ++ [new_rule d1 t1 f1])) p)
                :: after)%list)
    /\ (forall (p : dict) (after : list pyval),
          dict_get "Product" p = Some (PStr name) ->
          dict_get "Additional Rules" p = None ->
          add_rule (products ++ PDict p :: after) name d1 t1 f1
          = Ok (products ++
                PDict (p ++ [("Additional Rules", PList [new_rule d1 t1 f1])])
                :: after)%list).
Proof.
  intros products name d1 t1 d2 t2 f1 f2 Hd Hn.
  split; [|split; [|split]].
  - now apply add_rule_unknown.
  - rewrite (add_rule_unknown products name d1 t1 f1 Hd Hn). cbn [bind].
    apply (add_rule_known products
             [("Product", PStr name);
              ("Additional Rules", PList [new_rule d1 t1 f1])]
             _ [] name d2 t2 f2 Hd Hn eq_refl).
    reflexivity.
  - intros p after rules Hp Hr.
    apply add_rule_known; try assumption. now apply append_rule_existing.
  - intros p after Hp Hr.
    apply add_rule_known; try assumption.
    rewrite (append_rule_absent _ _ Hr). f_equal. now apply dict_set_absent.
Qed.

Lemma add_rule_new_then_append_demand :
  add_rule [termidor] "Demand CS" "Gloves" "wear gloves" false
  = Ok [termidor;
        PDict [("Product", PStr "Demand CS");
               ("Additional Rules",
                PList [new_rule "Gloves" "wear gloves" false])]].
Proof.
  apply (add_rule_new_then_append [termidor] "Demand CS" "Gloves"
           "wear gloves" "Mask" "wear a mask" false true).
  - repeat constructor.
  - intros p [H|[]]. injection H as <-. discriminate.
Defined.

(** C8. The [product_name] argument has no influence on the result of the
    extractor: two calls on the same text return the same string whatever
    the two names. In a run of the evaluator every verdict therefore
    reports the same actual usage rate, that of the whole text. *)
Theorem extract_usage_rate_ignores_product_name :
  (forall (text : string) (p1 p2 : pyval),
      extract_usage_rate text p1 = extract_usage_rate text p2)
  /\ (forall (extracted_text : string) (products : list pyval)
             (warnings : list string) (verdicts : list verdict) (v : verdict),
        check_compliance extracted_text products = (warnings, Ok verdicts) ->
        In v verdicts ->
        actual_usage_rate v = extract_usage_rate extracted_text PNone).
Proof.
  split.
  - intros text p1 p2. reflexivity.
  - intros text products warnings verdicts v Hrun Hv.
    destruct (check_compliance_verdict _ _ _ _ _ Hrun Hv)
      as (p & name & _ & _ & _ & Hb).
    destruct (build_verdict_final _ _ _ _ Hb) as (name' & st & _ & _ & _ & _ & Ha).
    exact Ha.
Qed.

Lemma extract_usage_rate_ignores_product_name_termidor :
  actual_usage_rate termidor_verdict = extract_usage_rate termidor_ticket PNone.
Proof.
  apply (proj2 extract_usage_rate_ignores_product_name termidor_ticket
           [termidor] [] [termidor_verdict] termidor_verdict).
  - vm_compute. reflexivity.
  - left. reflexivity.
Defined.

(** C9. Normalization is idempotent on strings; a value that is not a
    string normalizes to the empty string; on a string it is the
    transformation the specification describes: lower-case, every run of
    white space turned into one space, both ends trimmed. *)
Theorem normalize_text_idempotent :
  (forall x : string,
      normalize_text (PStr (normalize_text (PStr x))) = normalize_text (PStr x))
  /\ (forall v : pyval, is_str v = false -> normalize_text v = "")
  /\ (forall x : string, normalize_text (PStr x) = NormalizeSpec.normalize x).
Proof.
  split; [|split].
  - apply normalize_text_idem.
  - intros v H. destruct v; try reflexivity. discriminate H.
  - intros x. unfold normalize_text, NormalizeSpec.normalize.
    apply squeeze_is_trim_collapse.
Qed.

Lemma normalize_text_idempotent_number :
  normalize_text (PInt 5) = "".
Proof.
  apply (proj1 (proj2 normalize_text_idempotent) (PInt 5)). reflexivity.
Defined.

(** C10. An additional rule with no [rule_text] key, or whose [rule_text]
    normalizes to the empty string, never fails: whatever the text, the
    check of the rule returns with the flag and the findings as they
    were, because the empty string is a substring of every text. Put the
    other way round, a rule after whose check the flag or the findings
    differ is an object whose [rule_text] does not normalize to the empty
    string. *)
Theorem rule_without_text_passes :
  forall (normalized_text : string) (r : dict) (st : vstate),
    dict_get "rule_text" r = None
    \/ (exists v, dict_get "rule_text" r = Some v /\ normalize_text v = "") ->
    check_rule normalized_text (PDict r) st = Ok st
    /\ Text.contains "" normalized_text = true
    /\ (forall (rule : pyval) (st0 st' : vstate),
          check_rule normalized_text rule st0 = Ok st' -> st' <> st0 ->
          exists r' v, rule = PDict r' /\ dict_get "rule_text" r' = Some v
                       /\ normalize_text v <> "").
Proof.
  intros ntext r st H. split; [|split].
  - now apply check_rule_no_text.
  - apply contains_empty_needle.
  - intros rule st0 st' Hrun Hne.
    destruct rule as [| | | | | |r']; try discriminate Hrun.
    exists r'. destruct (dict_get "rule_text" r') as [v|] eqn:Hg.
    + exists v. split; [reflexivity|]. split; [reflexivity|].
      intros Hv. rewrite (check_rule_no_text ntext r' st0) in Hrun.
      * injection Hrun as <-. now apply Hne.
      * right. now exists v.
    + rewrite (check_rule_no_text ntext r' st0) in Hrun by now left.
      injection Hrun as <-. now contradiction Hne.
Qed.

Lemma rule_without_text_passes_blank :
  check_rule "applied termidor sc"
    (PDict [("description", PStr "Gloves"); ("rule_text", PStr "  ")])
    init_state
  = Ok init_state.
Proof.
  refine (proj1 _).
  apply (rule_without_text_passes "applied termidor sc"
           [("description", PStr "Gloves"); ("rule_text", PStr "  ")] init_state).
  right. exists (PStr "  "). split; reflexivity.
Defined.

(** * Further properties *)

(** ** The evaluator in closed form *)

Lemma record_findings_nothing st : record_findings [] [] st = st.
Proof.
  destruct st. unfold record_findings. simpl.
  now rewrite andb_true_r, !app_nil_r.
Qed.

Lemma record_findings_twice f1 r1 f2 r2 st :
  record_findings f2 r2 (record_findings f1 r1 st)
  = record_findings (f1 ++ f2) (r1 ++ r2) st.
Proof.
  unfold record_findings. cbn [st_compliant st_details st_labeled].
  rewrite <- !app_assoc, <- andb_assoc. f_equal.
  f_equal. destruct f1, f2; reflexivity.
Qed.

Lemma fold_left_record_findings {B} (f : vstate -> B -> vstate)
    (fs : B -> list string) (rs : B -> list pyval) (l : list B) :
  (forall st b, f st b = record_findings (fs b) (rs b) st) ->
  forall st, fold_left f l st
             = record_findings (flat_map fs l) (flat_map rs l) st.
Proof.
  intros Hf. induction l as [|b l IH]; intros st; cbn [fold_left flat_map].
  - now rewrite record_findings_nothing.
  - now rewrite IH, Hf, record_findings_twice.
Qed.

Lemma fail_with_findings msg st :
  fail_with msg st = record_findings [msg] [] st.
Proof.
  unfold record_findings, fail_with. cbn [st_compliant st_details st_labeled].
  now rewrite andb_false_r, app_nil_r.
Qed.

Lemma check_rate_findings ntext rate_type rate st :
  check_rate ntext rate_type rate st
  = record_findings (rate_finding ntext rate_type rate) [rate] st.
Proof.
  unfold check_rate, rate_finding, record_findings, fail_with, add_labeled.
  destruct (is_str rate && absent rate ntext);
    cbn [st_compliant st_details st_labeled].
  - now rewrite andb_false_r.
  - now rewrite andb_true_r, app_nil_r.
Qed.

Lemma check_application_rates_findings ntext p st :
  check_application_rates ntext p st
  = record_findings (rate_findings ntext p) (labeled_rates p) st.
Proof.
  unfold check_application_rates, rate_findings, labeled_rates.
  destruct (get_default "Application Rates" (PDict []) p) as [| | | |s|l|items];
    try (now rewrite record_findings_nothing).
  - unfold record_findings, fail_with, add_labeled.
    destruct (absent (PStr s) ntext); cbn [st_compliant st_details st_labeled].
    + now rewrite andb_false_r.
    + now rewrite andb_true_r, app_nil_r.
  - apply fold_left_record_findings. intros st' [k v]. cbn [fst snd].
    destruct v; try (rewrite check_rate_findings; reflexivity).
    apply (fold_left_record_findings _
             (fun skv => rate_finding ntext (fst skv) (snd skv))
             (fun skv => [snd skv])).
    intros st2 skv. apply check_rate_findings.
Qed.

Lemma check_conditions_findings ntext p st :
  check_conditions ntext p st
  = record_findings (condition_findings ntext p) [] st.
Proof.
  unfold check_conditions, condition_findings.
  destruct (get_default "Conditions" (PDict []) p) as [| | | | | |items];
    try (now rewrite record_findings_nothing).
  rewrite (fold_left_record_findings _
             (fun kv => if truthy (snd kv) && absent (PStr (fst kv)) ntext
                        then ["Condition not met: " ++ fst kv] else [])
             (fun _ => [])).
  - f_equal. induction items; [reflexivity | assumption].
  - intros st' [k v]. unfold check_condition. cbn [fst snd is_str].
    rewrite andb_true_r.
    destruct (truthy v && absent (PStr k) ntext).
    + unfold record_findings, fail_with. cbn [st_compliant st_details st_labeled].
      now rewrite andb_false_r, app_nil_r.
    + now rewrite record_findings_nothing.
Qed.

Lemma check_max_rate_finding ntext actual p st :
  check_max_rate ntext actual p st
  = match max_rate_finding ntext actual p with
    | Some (true, msg) => fail_with msg st
    | Some (false, msg) => note msg st
    | None => st
    end.
Proof.
  unfold check_max_rate, max_rate_finding.
  destruct (truthy _); [|reflexivity].
  destruct (is_str _ && absent _ ntext); reflexivity.
Qed.

Lemma check_rules_fine ntext rules :
  forall st,
    forallb (rule_fine ntext) rules = true ->
    check_rules ntext rules st
    = Ok (record_findings
            (flat_map (fun rule =>
                         match rule with
                         | PDict r =>
                             if rule_fails ntext r
                             then ["Rule not met: "
                                   ++ py_str (get_default "description" PNone r)]
                             else []
                         | _ => []
                         end) rules) [] st).
Proof.
  induction rules as [|rule rules IH]; intros st H; cbn [check_rules flat_map].
  - now rewrite record_findings_nothing.
  - cbn [forallb] in H. apply andb_true_iff in H as [Hr Hrs].
    destruct rule as [| | | | | |r]; try discriminate Hr.
    cbn [check_rule rule_fine] in *. fold (rule_fails ntext r).
    destruct (rule_fails ntext r) eqn:Hf.
    + unfold getitem, get_default.
      destruct (dict_get "description" r) as [d|]; [|discriminate Hr].
      cbn [bind]. now rewrite (IH _ Hrs), fail_with_findings, record_findings_twice.
    + cbn [bind]. now rewrite (IH _ Hrs).
Qed.

Lemma check_rules_not_fine ntext rules :
  forall st,
    forallb (rule_fine ntext) rules = false ->
    exists e, check_rules ntext rules st = Raise e.
Proof.
  induction rules as [|rule rules IH]; intros st H; [discriminate H|].
  cbn [forallb] in H. cbn [check_rules].
  destruct (rule_fine ntext rule) eqn:Hr.
  - destruct (check_rule ntext rule st) as [st'|e]; [|now exists e].
    cbn [bind]. apply IH. exact H.
  - destruct rule as [| | | | | |r]; try (now exists AttributeError).
    cbn [check_rule rule_fine] in *. fold (rule_fails ntext r).
    apply orb_false_iff in Hr as [Hf Hd]. apply negb_false_iff in Hf.
    rewrite Hf. unfold getitem.
    destruct (dict_get "description" r); [discriminate Hd|].
    now exists KeyError.
Qed.

Lemma str_items_strings (items : list pyval) :
  forallb is_str items = true ->
  str_items items = Ok (map py_str items).
Proof.
  induction items as [|v items IH]; [reflexivity|]. cbn [forallb].
  intros H. apply andb_true_iff in H as [Hv H].
  destruct v; try discriminate Hv. cbn [str_items]. now rewrite (IH H).
Qed.

Lemma str_items_not_strings (items : list pyval) :
  forallb is_str items = false -> str_items items = Raise TypeError.
Proof.
  induction items as [|v items IH]; [discriminate|]. cbn [forallb].
  intros H. destruct v; try reflexivity.
  cbn [str_items is_str andb] in *. now rewrite (IH H).
Qed.

Lemma build_verdict_fine text ntext p name :
  dict_get "Product" p = Some name ->
  entry_fine ntext p = true ->
  build_verdict text ntext p = Ok (verdict_of text ntext p name).
Proof.
  intros Hname Hfine. apply andb_true_iff in Hfine as [Hrules Hrates].
  unfold build_verdict, getitem. rewrite Hname. cbn [bind].
  assert (E : check_additional_rules ntext p
                (check_conditions ntext p
                   (check_max_rate ntext (extract_usage_rate text name) p
                      (check_application_rates ntext p init_state)))
              = Ok (record_findings (rule_findings ntext p) []
                      (check_conditions ntext p
                         (check_max_rate ntext (extract_usage_rate text name) p
                            (check_application_rates ntext p init_state))))).
  { unfold check_additional_rules, rule_findings, rules_of in *.
    destruct (get_default "Additional Rules" (PList []) p);
      try (now rewrite record_findings_nothing).
    now apply check_rules_fine. }
  rewrite E. cbn [bind].
  rewrite check_conditions_findings, check_max_rate_finding,
    check_application_rates_findings.
  unfold verdict_of.
  destruct (max_rate_finding ntext (extract_usage_rate text name) p)
    as [[[] msg]|];
    unfold py_join, record_findings, fail_with, note, init_state;
    cbn [st_compliant st_details st_labeled app];
    rewrite !app_nil_r, (str_items_strings _ Hrates); cbn [bind];
    f_equal; f_equal;
    try (rewrite <- !app_assoc; reflexivity);
    destruct (rate_findings ntext p), (condition_findings ntext p),
      (rule_findings ntext p); reflexivity.
Qed.

Lemma build_verdict_not_fine text ntext p :
  entry_fine ntext p = false ->
  exists e, build_verdict text ntext p = Raise e.
Proof.
  intros Hfine. unfold build_verdict, getitem.
  destruct (dict_get "Product" p) as [name|]; [|now exists KeyError].
  cbn [bind]. apply andb_false_iff in Hfine.
  destruct (forallb (rule_fine ntext) (rules_of p)) eqn:Hrules.
  - destruct Hfine as [Hfine|Hrates]; [discriminate|].
    destruct (check_additional_rules _ _ _) as [st|e] eqn:E; [|now exists e].
    cbn [bind]. exists TypeError.
    assert (Hl : st_labeled st = labeled_rates p).
    { revert E. unfold check_additional_rules, rules_of in *.
      destruct (get_default "Additional Rules" (PList []) p) eqn:G;
        try (intros [= <-]; rewrite check_conditions_findings,
               check_max_rate_finding, check_application_rates_findings;
             destruct (max_rate_finding _ _ _) as [[[] ?]|];
             cbn; now rewrite ?app_nil_r).
      rewrite (check_rules_fine _ _ _ Hrules). intros [= <-].
      rewrite check_conditions_findings, check_max_rate_finding,
        check_application_rates_findings.
      destruct (max_rate_finding _ _ _) as [[[] ?]|];
        cbn; now rewrite ?app_nil_r. }
    unfold py_join. rewrite Hl, (str_items_not_strings _ Hrates). reflexivity.
  - unfold check_additional_rules, rules_of in *.
    destruct (get_default "Additional Rules" (PList []) p);
      try discriminate Hrules.
    destruct (check_rules_not_fine ntext l
                (check_conditions ntext p
                   (check_max_rate ntext (extract_usage_rate text name) p
                      (check_application_rates ntext p init_state))) Hrules)
      as [e ->].
    now exists e.
Qed.

Lemma check_entry_cases text ntext entry :
  check_entry text ntext entry
  = match entry with
    | PDict p =>
        match dict_get "Product" p with
        | None => SkippedSilently
        | Some name =>
            if Text.contains (normalize_text name) ntext then
              match build_verdict text ntext p with
              | Ok v => Evaluated v
              | Raise e => Raised e
              end
            else NotMentioned
        end
    | _ => SkippedWithWarning (warning_of entry)
    end.
Proof.
  unfold check_entry, getitem. destruct entry; try reflexivity.
  destruct (dict_get "Product" d); reflexivity.
Qed.

Lemma check_loop_fine text ntext products :
  catalog_fine ntext products = true ->
  forall results warnings,
    check_loop text ntext products results warnings
    = ((warnings ++ warnings_of products)%list,
       Ok (results ++ verdicts_of text ntext products)%list).
Proof.
  induction products as [|entry rest IH]; intros Hfine results warnings.
  - cbn. now rewrite !app_nil_r.
  - cbn [catalog_fine forallb] in Hfine.
    apply andb_true_iff in Hfine as [He Hrest].
    cbn [check_loop]. rewrite check_entry_cases.
    unfold warnings_of, verdicts_of. cbn [filter flat_map].
    unfold mentioned in *.
    destruct entry as [| | | | | |p];
      try (cbn [is_dict negb map]; rewrite (IH Hrest);
           unfold warnings_of, verdicts_of;
           now rewrite <- app_assoc).
    cbn [is_dict negb].
    destruct (dict_get "Product" p) as [name|] eqn:Hname;
      [|now rewrite (IH Hrest)].
    destruct (Text.contains (normalize_text name) ntext);
      [|now rewrite (IH Hrest)].
    rewrite (build_verdict_fine text ntext p name Hname He), (IH Hrest).
    unfold verdicts_of. now rewrite <- app_assoc.
Qed.

Lemma check_loop_not_fine text ntext products :
  catalog_fine ntext products = false ->
  forall results warnings,
    exists w e, check_loop text ntext products results warnings = (w, Raise e).
Proof.
  induction products as [|entry rest IH]; intros Hfine results warnings;
    [discriminate Hfine|].
  cbn [catalog_fine forallb] in Hfine. cbn [check_loop].
  rewrite check_entry_cases. unfold mentioned in Hfine.
  destruct entry as [| | | | | |p]; try (apply IH; exact Hfine).
  destruct (dict_get "Product" p) as [name|]; [|apply IH; exact Hfine].
  destruct (Text.contains (normalize_text name) ntext);
    [|apply IH; exact Hfine].
  destruct (entry_fine ntext p) eqn:He.
  - destruct (build_verdict text ntext p); [apply IH; exact Hfine | eauto].
  - destruct (build_verdict_not_fine text ntext p He) as [e ->]. eauto.
Qed.

Lemma check_loop_acc text ntext products :
  forall results warnings,
    check_loop text ntext products results warnings
    = ((warnings ++ fst (check_loop text ntext products [] []))%list,
       match snd (check_loop text ntext products [] []) with
       | Ok verdicts => Ok (results ++ verdicts)%list
       | Raise e => Raise e
       end).
Proof.
  induction products as [|entry rest IH]; intros results warnings.
  - cbn. now rewrite !app_nil_r.
  - cbn [check_loop].
    destruct (check_entry text ntext entry) as [msg| | |v|e].
    + cbn [app]. rewrite (IH results (warnings ++ [msg])%list), (IH [] [msg]).
      destruct (check_loop text ntext rest [] []) as [w0 [r0|e0]];
        cbn [fst snd app]; now rewrite <- app_assoc.
    + apply IH.
    + apply IH.
    + cbn [app]. rewrite (IH (results ++ [v])%list warnings), (IH [v] []).
      destruct (check_loop text ntext rest [] []) as [w0 [r0|e0]];
        cbn [fst snd app]; now rewrite <- ?app_assoc.
    + cbn. now rewrite app_nil_r.
Qed.

Lemma flat_map_nil_forallb {A B C} (f : A -> list B) (g : A -> list C)
    (P : C -> bool) (l : list A) :
  (forall a, f a = [] <-> forallb P (g a) = true) ->
  flat_map f l = [] <-> forallb P (flat_map g l) = true.
Proof.
  intros H. induction l as [|a l IH]; cbn [flat_map]; [easy|].
  rewrite forallb_app, andb_true_iff, <- IH, <- H. split.
  - apply app_eq_nil.
  - intros [-> ->]. reflexivity.
Qed.

Lemma rate_finding_none ntext rate_type rate :
  rate_finding ntext rate_type rate = []
  <-> negb (is_str rate && absent rate ntext) = true.
Proof.
  unfold rate_finding. now destruct (is_str rate && absent rate ntext).
Qed.

Lemma rate_findings_none ntext p :
  rate_findings ntext p = [] <-> all_present ntext (labeled_rates p) = true.
Proof.
  unfold rate_findings, labeled_rates, all_present.
  destruct (get_default "Application Rates" (PDict []) p) as [| | | |s|l|items];
    try easy.
  - cbn [forallb is_str andb]. rewrite andb_true_r.
    destruct (absent (PStr s) ntext); easy.
  - apply flat_map_nil_forallb. intros [k v]. cbn [fst snd].
    destruct v;
      try (cbn [forallb]; rewrite andb_true_r; apply rate_finding_none).
    apply (flat_map_nil_forallb _ (fun skv => [snd skv])).
    intros [k' r]. cbn [fst snd forallb]. rewrite andb_true_r.
    apply rate_finding_none.
Qed.

Lemma condition_findings_none ntext p :
  condition_findings ntext p = []
  <-> all_present ntext (required_conditions p) = true.
Proof.
  unfold condition_findings, required_conditions, all_present.
  destruct (get_default "Conditions" (PDict []) p) as [| | | | | |items];
    try easy.
  induction items as [|[k v] items IH]; [easy|].
  cbn [flat_map filter fst snd]. destruct (truthy v); cbn [andb].
  - cbn [map forallb is_str andb fst]. rewrite andb_true_iff, <- IH.
    destruct (absent (PStr k) ntext); cbn [app negb].
    + split; [discriminate | intros [H _]; discriminate H].
    + split; [intros H; split; [reflexivity | exact H] | intros [_ H]; exact H].
  - exact IH.
Qed.

Lemma rule_findings_none ntext p :
  rule_findings ntext p = [] <-> all_present ntext (rule_texts p) = true.
Proof.
  unfold rule_findings, rule_texts, all_present.
  apply flat_map_nil_forallb. intros rule.
  destruct rule as [| | | | | |r]; try easy.
  cbn [forallb]. rewrite andb_true_r. unfold rule_fails.
  now destruct (is_str _ && absent _ ntext).
Qed.

Lemma max_rate_finding_passes ntext actual p :
  match max_rate_finding ntext actual p with
  | Some (true, _) => false
  | _ => true
  end = all_present ntext (max_rate_value p).
Proof.
  unfold max_rate_finding, max_rate_value, all_present.
  destruct (truthy _); [|reflexivity]. cbn [forallb]. rewrite andb_true_r.
  now destruct (is_str _ && absent _ ntext).
Qed.

Lemma verdict_of_compliant text ntext p name :
  compliant (verdict_of text ntext p name)
  = all_present ntext (labeled_rates p)
    && all_present ntext (max_rate_value p)
    && all_present ntext (required_conditions p)
    && all_present ntext (rule_texts p).
Proof.
  unfold verdict_of. cbn [compliant].
  rewrite <- (max_rate_finding_passes ntext (extract_usage_rate text name) p).
  pose proof (rate_findings_none ntext p) as H1.
  pose proof (condition_findings_none ntext p) as H2.
  pose proof (rule_findings_none ntext p) as H3.
  destruct (rate_findings ntext p).
  - rewrite (proj1 H1 eq_refl). clear H1.
    destruct (max_rate_finding _ _ _) as [[[] ?]|]; cbn [andb]; try reflexivity;
      (destruct (condition_findings ntext p);
       [ rewrite (proj1 H2 eq_refl); clear H2;
         destruct (rule_findings ntext p);
         [ now rewrite (proj1 H3 eq_refl)
         | destruct (all_present ntext (rule_texts p)); [|reflexivity];
           now discriminate (proj2 H3 eq_refl) ]
       | destruct (all_present ntext (required_conditions p)); [|reflexivity];
         now discriminate (proj2 H2 eq_refl) ]).
  - destruct (all_present ntext (labeled_rates p)); [|reflexivity].
    now discriminate (proj2 H1 eq_refl).
Qed.

Lemma check_compliance_fine_cases text products :
  let ntext := normalize_text (PStr text) in
  if catalog_fine ntext products
  then check_compliance text products
       = (warnings_of products, Ok (verdicts_of text ntext products))
  else exists w e, check_compliance text products = (w, Raise e).
Proof.
  intros ntext. unfold check_compliance. fold ntext.
  destruct (catalog_fine ntext products) eqn:H.
  - now rewrite (check_loop_fine text ntext products H).
  - now apply check_loop_not_fine.
Qed.

(** X1. [check_compliance] returns a list, rather than raising, exactly
    when every entry the text mentions is fine: every labeled rate of its
    [Application Rates] is a string and every item of its [Additional
    Rules] is an object that passes or has a [description]. *)
Theorem check_compliance_returns_iff_fine :
  forall (extracted_text : string) (products : list pyval),
    (exists verdicts, snd (check_compliance extracted_text products) = Ok verdicts)
    <-> catalog_fine (normalize_text (PStr extracted_text)) products = true.
Proof.
  intros text products.
  pose proof (check_compliance_fine_cases text products) as H. cbn zeta in H.
  destruct (catalog_fine _ products).
  - rewrite H. split; [reflexivity | intros _; eexists; reflexivity].
  - destruct H as (w & e & ->). split; [intros [v Hv]; discriminate Hv | discriminate].
Qed.

(** X2. When the mentioned entries are fine, the run returns one warning
    for each entry that is not an object, in catalog order, and one
    verdict for each mentioned entry, in catalog order; the details of a
    verdict are its rate findings, then the message on the max rate, then
    the condition findings, then the rule findings, and its labeled usage
    rate is the labeled rates joined by a comma and a space. *)
Theorem check_compliance_closed_form :
  forall (extracted_text : string) (products : list pyval),
    catalog_fine (normalize_text (PStr extracted_text)) products = true ->
    check_compliance extracted_text products
    = (warnings_of products,
       Ok (verdicts_of extracted_text (normalize_text (PStr extracted_text))
             products)).
Proof.
  intros text products H.
  pose proof (check_compliance_fine_cases text products) as C. cbn zeta in C.
  now rewrite H in C.
Qed.

Lemma check_compliance_closed_form_termidor :
  check_compliance termidor_ticket [PStr "Demand CS"; termidor]
  = (["Invalid product entry: Demand CS"], Ok [termidor_verdict]).
Proof.
  apply (check_compliance_closed_form termidor_ticket
           [PStr "Demand CS"; termidor]).
  reflexivity.
Defined.

Lemma in_verdicts_of text ntext products v :
  In v (verdicts_of text ntext products) ->
  exists p name, In (PDict p) products /\ dict_get "Product" p = Some name
                 /\ Text.contains (normalize_text name) ntext = true
                 /\ v = verdict_of text ntext p name.
Proof.
  unfold verdicts_of. rewrite in_flat_map. intros (entry & Hin & Hv).
  unfold mentioned in Hv. destruct entry as [| | | | | |p]; try destruct Hv.
  destruct (dict_get "Product" p) as [name|] eqn:Hn; [|destruct Hv].
  destruct (Text.contains _ _) eqn:Hc; [|destruct Hv].
  destruct Hv as [<-|[]]. exists p, name. auto.
Qed.

(** X3. A returned verdict is compliant exactly when every string among
    the labeled rates, the max rate (when it is truthy), the texts of the
    conditions whose flag is truthy and the [rule_text] of the rules is,
    once normalized, a substring of the normalized text. Values that are
    not strings never count against the product. *)
Theorem compliant_iff_all_present :
  forall (extracted_text : string) (products : list pyval)
         (warnings : list string) (verdicts : list verdict) (v : verdict),
    check_compliance extracted_text products = (warnings, Ok verdicts) ->
    In v verdicts ->
    exists p,
      In (PDict p) products /\ dict_get "Product" p = Some (product v)
      /\ compliant v
         = (let ntext := normalize_text (PStr extracted_text) in
            all_present ntext (labeled_rates p)
            && all_present ntext (max_rate_value p)
            && all_present ntext (required_conditions p)
            && all_present ntext (rule_texts p)).
Proof.
  intros text products warnings verdicts v Hrun Hv.
  pose proof (check_compliance_fine_cases text products) as C. cbn zeta in C.
  destruct (catalog_fine _ products).
  - rewrite C in Hrun. injection Hrun as _ <-.
    destruct (in_verdicts_of _ _ _ _ Hv) as (p & name & Hin & Hn & _ & ->).
    exists p. split; [exact Hin|]. split; [exact Hn|].
    apply verdict_of_compliant.
  - destruct C as (w & e & C). rewrite C in Hrun. discriminate Hrun.
Qed.

Lemma compliant_iff_all_present_termidor :
  exists p,
    In (PDict p) [termidor] /\ dict_get "Product" p = Some (product termidor_verdict)
    /\ compliant termidor_verdict
       = (let ntext := normalize_text (PStr termidor_ticket) in
          all_present ntext (labeled_rates p)
          && all_present ntext (max_rate_value p)
          && all_present ntext (required_conditions p)
          && all_present ntext (rule_texts p)).
Proof.
  apply (compliant_iff_all_present termidor_ticket [termidor] []
           [termidor_verdict] termidor_verdict).
  - vm_compute. reflexivity.
  - left. reflexivity.
Defined.

(** X4. An entry the text mentions that has none of the optional fields
    gets a verdict that is compliant, with no details, an empty labeled
    usage rate and [Labeled: None] in its deviation. *)
Theorem bare_product_is_compliant :
  forall (extracted_text : string) (p : dict) (name : pyval),
    dict_get "Product" p = Some name ->
    Text.contains (normalize_text name)
                  (normalize_text (PStr extracted_text)) = true ->
    dict_get "Application Rates" p = None ->
    dict_get "Max Application Rate" p = None ->
    dict_get "Conditions" p = None ->
    dict_get "Additional Rules" p = None ->
    check_compliance extracted_text [PDict p]
    = ([], Ok [ {| product := name;
                   compliant := true;
                   details := [];
                   actual_usage_rate := extract_usage_rate extracted_text name;
                   labeled_usage_rate := "";
                   deviation := "Actual: "
                                ++ extract_usage_rate extracted_text name
                                ++ ", Labeled: None" |} ]).
Proof.
  intros text p name Hn Hc Hr Hm Hcond Hrules.
  assert (F : catalog_fine (normalize_text (PStr text)) [PDict p] = true).
  { cbn [catalog_fine forallb mentioned]. rewrite Hn, Hc.
    unfold entry_fine, rules_of, labeled_rates, get_default.
    now rewrite Hrules, Hr. }
  pose proof (check_compliance_fine_cases text [PDict p]) as C. cbn zeta in C.
  rewrite F in C. rewrite C.
  unfold warnings_of, verdicts_of. cbn [filter is_dict negb map flat_map mentioned].
  rewrite Hn, Hc. cbn [app]. unfold verdict_of, rate_findings,
    max_rate_finding, condition_findings, rule_findings, rules_of,
    labeled_rates, deviation_of, get_default.
  rewrite Hr, Hm, Hcond, Hrules. reflexivity.
Qed.

Lemma bare_product_is_compliant_demand :
  check_compliance "Used Demand CS" [PDict [("Product", PStr "Demand CS")]]
  = ([], Ok [ {| product := PStr "Demand CS";
                 compliant := true;
                 details := [];
                 actual_usage_rate := "Not found";
                 labeled_usage_rate := "";
                 deviation := "Actual: Not found, Labeled: None" |} ]).
Proof.
  apply (bare_product_is_compliant "Used Demand CS"
           [("Product", PStr "Demand CS")] (PStr "Demand CS"));
    reflexivity.
Defined.

Lemma max_rate_finding_shape ntext a1 a2 p :
  match max_rate_finding ntext a1 p, max_rate_finding ntext a2 p with
  | Some (b1, _), Some (b2, _) => b1 = b2
  | None, None => True
  | _, _ => False
  end.
Proof.
  unfold max_rate_finding. destruct (truthy _); [|exact I].
  now destruct (is_str _ && absent _ ntext).
Qed.

Lemma verdict_of_same_outcome t1 t2 ntext p name :
  same_outcome (verdict_of t1 ntext p name) (verdict_of t2 ntext p name).
Proof.
  unfold same_outcome, verdict_of.
  cbn [product compliant labeled_usage_rate details].
  pose proof (max_rate_finding_shape ntext (extract_usage_rate t1 name)
                (extract_usage_rate t2 name) p) as H.
  destruct (max_rate_finding ntext (extract_usage_rate t1 name) p) as [[b1 m1]|],
    (max_rate_finding ntext (extract_usage_rate t2 name) p) as [[b2 m2]|];
    try contradiction; [subst b2|];
    (split; [reflexivity|]; split; [reflexivity|]; split; [reflexivity|]);
    rewrite !List.length_app; reflexivity.
Qed.

Lemma verdicts_of_same_outcome t1 t2 ntext products :
  Forall2 same_outcome (verdicts_of t1 ntext products)
                       (verdicts_of t2 ntext products).
Proof.
  unfold verdicts_of. induction products as [|entry rest IH]; [constructor|].
  cbn [flat_map].
  destruct (mentioned ntext entry) as [[p name]|]; [|exact IH].
  constructor; [apply verdict_of_same_outcome | exact IH].
Qed.

(** X5. Two documents with the same normalized text are judged alike: if
    the run on one returns, the run on the other returns too, with the
    same warnings and, verdict by verdict, the same product, the same
    [compliant] flag, the same labeled usage rate and as many details. *)
Theorem same_normalized_text_same_outcome :
  forall (text1 text2 : string) (products : list pyval)
         (warnings : list string) (verdicts1 : list verdict),
    normalize_text (PStr text1) = normalize_text (PStr text2) ->
    check_compliance text1 products = (warnings, Ok verdicts1) ->
    exists verdicts2,
      check_compliance text2 products = (warnings, Ok verdicts2)
      /\ Forall2 same_outcome verdicts1 verdicts2.
Proof.
  intros t1 t2 products warnings verdicts1 Hn Hrun.
  pose proof (check_compliance_fine_cases t1 products) as C1.
  pose proof (check_compliance_fine_cases t2 products) as C2.
  cbn zeta in C1, C2. rewrite <- Hn in C2.
  destruct (catalog_fine _ products).
  - rewrite C1 in Hrun. injection Hrun as <- <-.
    eexists. split; [exact C2|]. apply verdicts_of_same_outcome.
  - destruct C1 as (w & e & C1). rewrite C1 in Hrun. discriminate Hrun.
Qed.

Lemma same_normalized_text_same_outcome_termidor :
  exists verdicts2,
    check_compliance "applied   TERMIDOR sc at 0.06% Solution to dry soil"
      [termidor] = ([], Ok verdicts2)
    /\ Forall2 same_outcome [termidor_verdict] verdicts2.
Proof.
  apply (same_normalized_text_same_outcome termidor_ticket
           "applied   TERMIDOR sc at 0.06% Solution to dry soil" [termidor] []
           [termidor_verdict]).
  - vm_compute. reflexivity.
  - vm_compute. reflexivity.
Defined.

(** X6. The run over two catalogs put end to end is the run over the
    first followed by the run over the second: the warnings and the
    verdicts are concatenated, and an exception of the first run hides
    the second. *)
Theorem check_compliance_app :
  forall (extracted_text : string) (products1 products2 : list pyval),
    check_compliance extracted_text (products1 ++ products2)
    = match check_compliance extracted_text products1,
            check_compliance extracted_text products2 with
      | (w1, Ok v1), (w2, Ok v2) => ((w1 ++ w2)%list, Ok (v1 ++ v2)%list)
      | (w1, Ok _), (w2, Raise e) => ((w1 ++ w2)%list, Raise e)
      | (w1, Raise e), _ => (w1, Raise e)
      end.
Proof.
  intros text a b. unfold check_compliance.
  rewrite check_loop_app.
  destruct (check_loop text _ a [] []) as [w1 [v1|e]]; [|reflexivity].
  rewrite check_loop_acc.
  destruct (check_loop text _ b [] []) as [w2 [v2|e]]; reflexivity.
Qed.

(** ** Texts without a number *)

Lemma lower_char_dot (c : ascii) :
  Ascii.eqb (Text.lower_char c) (Text.lower_char ".") = Ascii.eqb c ".".
Proof. by_cases_on_char c. Qed.

Lemma atom_match_numeric (ks : list cls) (c : ascii) :
  numeric_only ks = true -> atom_match true ks c = true ->
  numeric_char c = true.
Proof.
  unfold atom_match, numeric_only, numeric_char.
  induction ks as [|k ks IH]; [discriminate 2|]. cbn [forallb existsb].
  intros Hk Hm. apply andb_true_iff in Hk as [Hk Hks].
  apply orb_true_iff in Hm as [Hm|Hm]; [|now apply IH].
  destruct k as [x| |]; try discriminate Hk; cbn [cls_match] in Hm.
  - apply Ascii.eqb_eq in Hk. subst x. rewrite lower_char_dot in Hm.
    rewrite Hm. apply orb_true_r.
  - now rewrite Hm.
Qed.

Lemma star_match_rest ic ks s g m :
  In m (star_match ic ks s g) -> exists pre, s = pre ++ snd m.
Proof.
  induction s as [|c s IH]; cbn [star_match].
  - intros [<-|[]]. now exists "".
  - destruct (atom_match ic ks c).
    + rewrite in_app_iff. intros [H|[<-|[]]]; [|now exists ""].
      destruct (IH H) as [pre ->]. now exists (String c pre).
    + intros [<-|[]]. now exists "".
Qed.

Lemma rmatch_rest ic (r : regex) :
  forall s g m, In m (rmatch ic r s g) -> exists pre, s = pre ++ snd m.
Proof.
  induction r as [|ks|ks|ks|r IH|r1 IH1 r2 IH2|r1 IH1 r2 IH2|j r IH];
    intros s g m Hin; cbn [rmatch] in Hin.
  - destruct Hin as [<-|[]]. now exists "".
  - destruct s as [|c s]; [destruct Hin|].
    destruct (atom_match ic ks c); [|destruct Hin].
    destruct Hin as [<-|[]]. now exists (String c "").
  - now apply star_match_rest in Hin.
  - destruct s as [|c s]; [destruct Hin|].
    destruct (atom_match ic ks c); [|destruct Hin].
    apply star_match_rest in Hin as [pre ->]. now exists (String c pre).
  - apply in_app_iff in Hin as [Hin|[<-|[]]]; [now apply IH in Hin | now exists ""].
  - apply in_flat_map in Hin as (m1 & Hm1 & Hm).
    apply IH1 in Hm1 as [pre1 ->]. apply IH2 in Hm as [pre2 E].
    exists (pre1 ++ pre2). rewrite E at 1.
    clear. induction pre1 as [|c p IHp]; simpl; [reflexivity | now rewrite IHp].
  - apply in_app_iff in Hin as [Hin|Hin]; [now apply IH1 in Hin | now apply IH2 in Hin].
  - apply in_map_iff in Hin as (m1 & <- & Hm1). cbn [snd]. now apply IH in Hm1.
Qed.

Lemma has_numeric_app (s t : string) :
  has_numeric (s ++ t) = has_numeric s || has_numeric t.
Proof.
  induction s as [|c s IH]; simpl; [reflexivity|].
  now rewrite IH, orb_assoc.
Qed.

Lemma flat_map_all_nil {A B} (f : A -> list B) (l : list A) :
  (forall a, In a l -> f a = []) -> flat_map f l = [].
Proof.
  induction l as [|a l IH]; intros H; [reflexivity|]. cbn [flat_map].
  rewrite (H a (or_introl eq_refl)), IH; [reflexivity|].
  intros b Hb. apply H. now right.
Qed.

Lemma rmatch_needs_number (r : regex) :
  forall s g, needs_number r = true -> has_numeric s = false ->
              rmatch true r s g = [].
Proof.
  induction r as [|ks|ks|ks|r IH|r1 IH1 r2 IH2|r1 IH1 r2 IH2|j r IH];
    intros s g Hr Hs; cbn [needs_number] in Hr; try discriminate Hr;
    cbn [rmatch].
  - destruct s as [|c s]; [reflexivity|].
    destruct (atom_match true ks c) eqn:Hm; [|reflexivity].
    cbn [has_numeric] in Hs.
    now rewrite (atom_match_numeric ks c Hr Hm) in Hs.
  - destruct s as [|c s]; [reflexivity|].
    destruct (atom_match true ks c) eqn:Hm; [|reflexivity].
    cbn [has_numeric] in Hs.
    now rewrite (atom_match_numeric ks c Hr Hm) in Hs.
  - apply orb_true_iff in Hr as [Hr|Hr].
    + now rewrite (IH1 s g Hr Hs).
    + apply flat_map_all_nil. intros m Hm. apply IH2; [exact Hr|].
      apply rmatch_rest in Hm as [pre E]. rewrite E, has_numeric_app in Hs.
      now apply orb_false_iff in Hs as [_ Hs].
  - apply andb_true_iff in Hr as [H1 H2].
    now rewrite (IH1 s g H1 Hs), (IH2 s g H2 Hs).
  - now rewrite (IH s g Hr Hs).
Qed.

Lemma search_needs_number (r : regex) (text : string) :
  needs_number r = true -> has_numeric text = false ->
  Re.search true r text = None.
Proof.
  intros Hr. induction text as [|c text IH]; intros Hs; cbn [Re.search];
    unfold match_here; rewrite (rmatch_needs_number r _ [] Hr Hs);
    [reflexivity|].
  apply IH. cbn [has_numeric] in Hs. now apply orb_false_iff in Hs as [_ Hs].
Qed.

(** X7. A text with no digit and no dot has no usage rate: the extractor
    returns [Not found], because each of the three patterns needs at
    least one such character for its value. *)
Theorem no_number_no_rate :
  forall (text : string) (product_name : pyval),
    has_numeric text = false ->
    extract_usage_rate text product_name = "Not found".
Proof.
  intros text product_name H. unfold extract_usage_rate.
  apply extract_loop_none. intros p [<-|[<-|[<-|[]]]];
    now apply search_needs_number.
Qed.

Lemma no_number_no_rate_ticket :
  extract_usage_rate "Concentrated Amount: five grams per sq ft" PNone
  = "Not found".
Proof.
  apply (no_number_no_rate "Concentrated Amount: five grams per sq ft" PNone).
  reflexivity.
Defined.

(** ** Blank product names *)

Lemma split_nil_iff_blank (s : string) :
  Text.split s = [] <-> blank s = true.
Proof.
  induction s as [|c s IH]; [easy|]. cbn [Text.split blank].
  destruct (Text.isspace c); cbn [andb]; [exact IH|].
  split; [|discriminate]. destruct (Text.starts_word s); [|discriminate].
  destruct (Text.split s); discriminate.
Qed.

Lemma blank_lower (s : string) : blank (Text.lower s) = blank s.
Proof.
  induction s as [|c s IH]; [reflexivity|]. cbn [Text.lower blank].
  now rewrite isspace_lower_char, IH.
Qed.

Lemma join_nil_iff (ws : list string) :
  Forall word ws -> Text.join " " ws = "" <-> ws = [].
Proof.
  intros H. split; [|now intros ->].
  destruct H as [|w ws [Hne _] _]; [reflexivity|].
  destruct w as [|c w]; [congruence|].
  destruct ws; discriminate.
Qed.

Lemma normalize_text_blank (s : string) :
  normalize_text (PStr s) = "" <-> blank s = true.
Proof.
  unfold normalize_text.
  rewrite (join_nil_iff _ (split_words (Text.lower s))).
  now rewrite split_nil_iff_blank, blank_lower.
Qed.

(** X8. A string normalizes to the empty string exactly when it is blank
    (empty or white space only). An entry whose [Product] is such a
    string, or is not a string at all, is therefore mentioned by every
    document: its run never returns the empty list. *)
Theorem blank_name_always_mentioned :
  (forall s : string, normalize_text (PStr s) = "" <-> blank s = true)
  /\ (forall (extracted_text : string) (p : dict) (name : pyval),
        dict_get "Product" p = Some name ->
        is_str name = false \/ (exists s, name = PStr s /\ blank s = true) ->
        snd (check_compliance extracted_text [PDict p]) <> Ok []).
Proof.
  split; [exact normalize_text_blank|].
  intros text p name Hn Hblank. unfold check_compliance.
  apply (check_loop_empty_name text _ [PDict p] p name (or_introl eq_refl) Hn).
  assert (E : normalize_text name = "").
  { destruct Hblank as [H|(s & -> & H)].
    - destruct name; try reflexivity. discriminate H.
    - now apply normalize_text_blank. }
  rewrite E. apply contains_empty_needle.
Qed.

Lemma blank_name_always_mentioned_null :
  snd (check_compliance "Applied Termidor SC" [PDict [("Product", PNone)]])
  <> Ok [].
Proof.
  apply (proj2 blank_name_always_mentioned "Applied Termidor SC"
           [("Product", PNone)] PNone eq_refl).
  left. reflexivity.
Defined.

(** ** [add_rule] on well-formed catalogs *)

Lemma dict_get_set_other (k k' : string) (v : pyval) (d : dict) :
  k <> k' -> dict_get k (dict_set k' v d) = dict_get k d.
Proof.
  intros Hk. induction d as [|[k0 v0] d IH]; cbn [dict_set dict_get].
  - apply String.eqb_neq in Hk. now rewrite Hk.
  - destruct (String.eqb k' k0) eqn:E; cbn [dict_get].
    + apply String.eqb_eq in E. subst k0.
      apply String.eqb_neq in Hk. now rewrite Hk.
    + now rewrite IH.
Qed.

Lemma append_rule_ok rule p :
  entry_ok (PDict p) = true ->
  exists p', append_rule rule p = Ok p'
             /\ entry_ok (PDict p') = true
             /\ dict_get "Product" p' = dict_get "Product" p.
Proof.
  cbn [entry_ok]. intros H.
  destruct (dict_get "Additional Rules" p) as [v|] eqn:E.
  - destruct v; try discriminate H.
    rewrite (append_rule_existing rule p l E). eexists. split; [reflexivity|].
    cbn [entry_ok]. rewrite dict_get_set_same.
    split; [reflexivity | now apply dict_get_set_other].
  - rewrite (append_rule_absent rule p E). eexists. split; [reflexivity|].
    cbn [entry_ok]. rewrite dict_get_set_same.
    split; [reflexivity | now apply dict_get_set_other].
Qed.

Lemma find_and_append_ok products name rule :
  forallb entry_ok products = true ->
  exists r, find_and_append products name rule = Ok r
            /\ match r with
               | Some products' =>
                   forallb entry_ok products' = true
                   /\ map product_of products' = map product_of products
               | None => True
               end.
Proof.
  induction products as [|entry rest IH]; intros H.
  - now exists None.
  - cbn [forallb] in H. apply andb_true_iff in H as [He Hrest].
    destruct entry as [| | | | | |p]; try discriminate He.
    cbn [find_and_append].
    destruct (eq_str (get_default "Product" PNone p) name).
    + destruct (append_rule_ok rule p He) as (p' & -> & Hok & Hp).
      cbn [bind]. eexists. split; [reflexivity|]. cbn [forallb map product_of].
      rewrite Hok, Hrest. split; [reflexivity|].
      unfold get_default. now rewrite Hp.
    + destruct (IH Hrest) as (r & -> & Hr). cbn [bind].
      eexists. split; [reflexivity|].
      destruct r as [products'|]; [|exact I]. cbn [option_map forallb map].
      destruct Hr as [Hok Hmap]. rewrite He, Hok, Hmap. now split.
Qed.

(** X9. On a catalog whose entries are all objects with [Additional
    Rules] absent or a list, [add_rule] never raises, and the catalog it
    returns is again of that kind: either it has the same entries with
    the same [Product] values, or these followed by one new entry for the
    name. So rules can be added one after another without end. *)
Theorem add_rule_keeps_catalog_well_formed :
  forall (products : list pyval) (name description rule_text : string)
         (flag : bool),
    forallb entry_ok products = true ->
    exists products',
      add_rule products name description rule_text flag = Ok products'
      /\ forallb entry_ok products' = true
      /\ (map product_of products' = map product_of products
          \/ map product_of products'
             = (map product_of products ++ [PStr name])%list).
Proof.
  intros products name d t f H. unfold add_rule.
  destruct (find_and_append_ok products name (new_rule d t f) H)
    as (r & -> & Hr).
  cbn [bind]. destruct r as [products'|].
  - exists products'. destruct Hr as [Hok Hmap]. auto.
  - eexists. split; [reflexivity|]. split.
    + rewrite forallb_app, H. reflexivity.
    + right. now rewrite map_app.
Qed.

Lemma add_rule_keeps_catalog_well_formed_termidor :
  exists products',
    add_rule [termidor] "Termidor SC" "Gloves" "wear gloves" false = Ok products'
    /\ forallb entry_ok products' = true
    /\ (map product_of products' = map product_of [termidor]
        \/ map product_of products'
           = (map product_of [termidor] ++ [PStr "Termidor SC"])%list).
Proof.
  apply (add_rule_keeps_catalog_well_formed [termidor] "Termidor SC" "Gloves"
           "wear gloves" false).
  reflexivity.
Defined.

(** ** A rule added, then a document evaluated *)

Lemma check_compliance_new_entry text name d t f :
  check_compliance text
    [PDict [("Product", PStr name);
            ("Additional Rules", PList [new_rule d t f])]]
  = ([], Ok (if Text.contains (normalize_text (PStr name))
                              (normalize_text (PStr text))
             then [new_entry_verdict text name d t]
             else [])).
Proof.
  unfold check_compliance. cbn [check_loop].
  rewrite check_entry_cases.
  change (dict_get "Product" [("Product", PStr name);
                              ("Additional Rules", PList [new_rule d t f])])
    with (Some (PStr name)). cbn iota.
  destruct (Text.contains (normalize_text (PStr name))
                          (normalize_text (PStr text))); [|reflexivity].
  unfold build_verdict, getitem.
  change (dict_get "Product" [("Product", PStr name);
                              ("Additional Rules", PList [new_rule d t f])])
    with (Some (PStr name)). cbn [bind].
  unfold check_application_rates, check_max_rate, check_conditions,
    check_additional_rules, get_default.
  change (dict_get "Application Rates" _) with (@None pyval).
  change (dict_get "Max Application Rate" _) with (@None pyval).
  change (dict_get "Conditions" _) with (@None pyval).
  change (dict_get "Additional Rules" _) with (Some (PList [new_rule d t f])).
  cbn [fold_left truthy check_rules check_rule new_rule].
  unfold get_default, getitem.
  change (dict_get "rule_text" _) with (Some (PStr t)).
  change (dict_get "description" _) with (Some (PStr d)).
  cbn [is_str andb]. unfold new_entry_verdict, absent.
  destruct (Text.contains (normalize_text (PStr t)) (normalize_text (PStr text)));
    reflexivity.
Qed.

(** X10. Adding a rule for a name that no entry of an all-objects catalog
    has, and then evaluating a document, gives what the catalog gave
    before, followed, when the document mentions the name, by one verdict
    for it: compliant exactly when the normalized rule text is in the
    normalized document, with the finding [Rule not met] and the
    description otherwise. *)
Theorem add_rule_then_check_compliance :
  forall (extracted_text : string) (products : list pyval)
         (name description rule_text : string) (flag : bool),
    Forall (fun entry => is_dict entry = true) products ->
    (forall p, In (PDict p) products ->
               get_default "Product" PNone p <> PStr name) ->
    exists products',
      add_rule products name description rule_text flag = Ok products'
      /\ check_compliance extracted_text products'
         = match check_compliance extracted_text products with
           | (warnings, Ok verdicts) =>
               (warnings,
                Ok (verdicts
                    ++ (if Text.contains (normalize_text (PStr name))
                             (normalize_text (PStr extracted_text))
                        then [new_entry_verdict extracted_text name
                                description rule_text]
                        else []))%list)
           | (warnings, Raise e) => (warnings, Raise e)
           end.
Proof.
  intros text products name d t f Hd Hn.
  eexists. split; [now apply add_rule_unknown|].
  pose proof (check_compliance_new_entry text name d t f) as Hnew.
  unfold check_compliance in *. rewrite check_loop_app.
  destruct (check_loop text _ products [] []) as [w [vs|e]]; [|reflexivity].
  rewrite check_loop_acc, Hnew. cbn [fst snd]. now rewrite app_nil_r.
Qed.

Lemma add_rule_then_check_compliance_demand :
  exists products',
    add_rule [termidor] "Demand CS" "Gloves" "wear gloves" false = Ok products'
    /\ check_compliance "Used Demand CS, no gloves" products'
       = match check_compliance "Used Demand CS, no gloves" [termidor] with
         | (warnings, Ok verdicts) =>
             (warnings,
              Ok (verdicts
                  ++ (if Text.contains (normalize_text (PStr "Demand CS"))
                           (normalize_text (PStr "Used Demand CS, no gloves"))
                      then [new_entry_verdict "Used Demand CS, no gloves"
                              "Demand CS" "Gloves" "wear gloves"]
                      else []))%list)
         | (warnings, Raise e) => (warnings, Raise e)
         end.
Proof.
  apply (add_rule_then_check_compliance "Used Demand CS, no gloves" [termidor]
           "Demand CS" "Gloves" "wear gloves" false).
  - repeat constructor.
  - intros p [H|[]]. injection H as <-. discriminate.
Defined.

(** ** The entities of a processed document *)

Lemma dict_get_set (k k' : string) (v : pyval) (d : dict) :
  dict_get k (dict_set k' v d)
  = if String.eqb k k' then Some v else dict_get k d.
Proof.
  destruct (String.eqb k k') eqn:E.
  - apply String.eqb_eq in E. subst k'. apply dict_get_set_same.
  - apply String.eqb_neq in E. now apply dict_get_set_other.
Qed.

Lemma fold_set_get (key : string) (entities : list (string * string)) :
  forall d,
    dict_get key
      (fold_left (fun acc entity => dict_set (fst entity) (PStr (snd entity)) acc)
                 entities d)
    = match last_mention key entities with
      | Some text => Some (PStr text)
      | None => dict_get key d
      end.
Proof.
  induction entities as [|[k text] rest IH]; intros d; [reflexivity|].
  cbn [fold_left last_mention fst snd]. rewrite IH.
  destruct (last_mention key rest); [reflexivity|].
  rewrite dict_get_set. now destruct (String.eqb key k).
Qed.

Lemma keys_dict_set (k : string) (v : pyval) (d : dict) :
  keys (dict_set k v d) = if existsb (String.eqb k) (keys d)
                          then keys d else (keys d ++ [k])%list.
Proof.
  unfold keys. induction d as [|[k' v'] d IH]; [reflexivity|].
  cbn [dict_set map fst existsb].
  destruct (String.eqb k k') eqn:E; cbn [orb map fst].
  - apply String.eqb_eq in E. now subst k'.
  - rewrite IH. now destruct (existsb (String.eqb k) (map fst d)).
Qed.

Lemma NoDup_keys_dict_set (k : string) (v : pyval) (d : dict) :
  NoDup (keys d) -> NoDup (keys (dict_set k v d)).
Proof.
  intros H. rewrite keys_dict_set.
  destruct (existsb (String.eqb k) (keys d)) eqn:E; [exact H|].
  assert (Hk : ~ In k (keys d)).
  { intros Hin.
    assert (X : existsb (String.eqb k) (keys d) = true).
    { apply existsb_exists. exists k. split; [exact Hin | apply String.eqb_refl]. }
    congruence. }
  clear E. induction (keys d) as [|a l IH]; cbn [app].
  - constructor; [intros [] | constructor].
  - inversion H as [|? ? Ha Hl]; subst. constructor.
    + rewrite in_app_iff. intros [Hin|[<-|[]]]; [now apply Ha|].
      apply Hk. now left.
    + apply IH; [exact Hl|]. intros Hin. apply Hk. now right.
Qed.

Lemma NoDup_keys_fold (entities : list (string * string)) :
  forall d, NoDup (keys d) ->
    NoDup (keys (fold_left
                   (fun acc entity => dict_set (fst entity) (PStr (snd entity)) acc)
                   entities d)).
Proof.
  induction entities as [|e rest IH]; intros d H; [exact H|].
  cbn [fold_left]. apply IH. now apply NoDup_keys_dict_set.
Qed.

(** X11. In the dictionary [process_with_docai] returns with the text, a
    type maps to the mention text of the last entity of that type in the
    document, earlier entities of the same type being overwritten; a type
    no entity has is absent; no key occurs twice. *)
Theorem entities_last_mention_wins :
  forall (text : string) (entities : list (string * string)) (key : string),
    fst (docai_result text entities) = text
    /\ dict_get key (snd (docai_result text entities))
       = option_map PStr (last_mention key entities)
    /\ NoDup (keys (snd (docai_result text entities))).
Proof.
  intros text entities key. split; [reflexivity|]. split.
  - cbn [docai_result snd]. unfold collect_entities. rewrite fold_set_get.
    now destruct (last_mention key entities).
  - cbn [docai_result snd]. apply NoDup_keys_fold. constructor.
Qed.

(** ** The report on screen and in the PDF *)

Lemma written_findings_app (a b : list ui) :
  written_findings (a ++ b) = (written_findings a ++ written_findings b)%list.
Proof. apply flat_map_app. Qed.

Lemma pdf_findings_app (a b : list flowable) :
  pdf_findings (a ++ b) = (pdf_findings a ++ pdf_findings b)%list.
Proof. apply flat_map_app. Qed.

Lemma written_answers_app (a b : list ui) :
  written_answers (a ++ b) = (written_answers a ++ written_answers b)%list.
Proof. apply flat_map_app. Qed.

Lemma pdf_answers_app (a b : list flowable) :
  pdf_answers (a ++ b) = (pdf_answers a ++ pdf_answers b)%list.
Proof. apply flat_map_app. Qed.

Lemma written_findings_details (ds : list string) :
  written_findings (map (fun detail => Write ("- " ++ detail)) ds) = ds.
Proof.
  unfold written_findings. induction ds as [|d ds IH]; [reflexivity|].
  cbn [map flat_map]. change (Text.startswith "- " ("- " ++ d)) with true.
  cbn iota. change (Text.drop 2 ("- " ++ d)) with d. cbn [app].
  now rewrite IH.
Qed.

Lemma pdf_findings_details (ds : list string) :
  pdf_findings (map (fun detail => Paragraph ("- " ++ detail) CustomStyle) ds)
  = ds.
Proof.
  unfold pdf_findings. induction ds as [|d ds IH]; [reflexivity|].
  cbn [map flat_map]. change (Text.drop 2 ("- " ++ d)) with d. cbn [app].
  now rewrite IH.
Qed.

Lemma written_answers_details (ds : list string) :
  written_answers (map (fun detail => Write ("- " ++ detail)) ds) = [].
Proof. induction ds as [|d ds IH]; [reflexivity|]. exact IH. Qed.

Lemma pdf_answers_details (ds : list string) :
  pdf_answers (map (fun detail => Paragraph ("- " ++ detail) CustomStyle) ds)
  = [].
Proof. induction ds as [|d ds IH]; [reflexivity|]. exact IH. Qed.

Lemma display_verdict_read (v : verdict) :
  written_findings (display_verdict v) = details v
  /\ written_answers (display_verdict v) = [yes_no (compliant v)].
Proof.
  unfold display_verdict. split.
  - rewrite !written_findings_app, written_findings_details.
    cbn. now rewrite app_nil_r.
  - rewrite !written_answers_app, written_answers_details. reflexivity.
Qed.

Lemma verdict_flowables_read (v : verdict) :
  pdf_findings (verdict_flowables v) = details v
  /\ pdf_answers (verdict_flowables v) = [yes_no (compliant v)].
Proof.
  unfold verdict_flowables. split.
  - rewrite !pdf_findings_app, pdf_findings_details.
    cbn. now rewrite app_nil_r.
  - rewrite !pdf_answers_app, pdf_answers_details. reflexivity.
Qed.

Lemma display_verdicts_read (vs : list verdict) :
  written_findings (flat_map display_verdict vs) = flat_map details vs
  /\ written_answers (flat_map display_verdict vs)
     = map (fun v => yes_no (compliant v)) vs.
Proof.
  induction vs as [|v vs [IH1 IH2]]; [now split|]. cbn [flat_map map].
  rewrite written_findings_app, written_answers_app, IH1, IH2.
  destruct (display_verdict_read v) as [-> ->]. now split.
Qed.

Lemma flowables_verdicts_read (vs : list verdict) :
  pdf_findings (flat_map verdict_flowables vs) = flat_map details vs
  /\ pdf_answers (flat_map verdict_flowables vs)
     = map (fun v => yes_no (compliant v)) vs.
Proof.
  induction vs as [|v vs [IH1 IH2]]; [now split|]. cbn [flat_map map].
  rewrite pdf_findings_app, pdf_answers_app, IH1, IH2.
  destruct (verdict_flowables_read v) as [-> ->]. now split.
Qed.

(** X12. The page [display_results] writes and the flowables
    [generate_pdf] hands to the PDF builder list the same findings: the
    details of every verdict of every file, each once, in order. They
    also give the same answers on compliance, [Yes] for a compliant
    verdict and [No] otherwise, in the order of the verdicts. *)
Theorem screen_and_pdf_agree :
  forall results : list file_result,
    written_findings (display_results results)
    = flat_map details (all_verdicts results)
    /\ pdf_findings (pdf_flowables results)
       = flat_map details (all_verdicts results)
    /\ written_answers (display_results results)
       = map (fun v => yes_no (compliant v)) (all_verdicts results)
    /\ pdf_answers (pdf_flowables results)
       = map (fun v => yes_no (compliant v)) (all_verdicts results).
Proof.
  induction results as [|r rs (IH1 & IH2 & IH3 & IH4)]; [now repeat split|].
  unfold all_verdicts in *. cbn [display_results pdf_flowables flat_map].
  fold (display_results rs). fold (pdf_flowables rs).
  rewrite flat_map_app, map_app.
  rewrite !written_findings_app, !written_answers_app,
    !pdf_findings_app, !pdf_answers_app, IH1, IH2, IH3, IH4.
  destruct (display_verdicts_read (compliance_results r)) as [-> ->].
  destruct (flowables_verdicts_read (compliance_results r)) as [-> ->].
  cbn. now rewrite !app_nil_r.
Qed.

(** ** The batch of uploaded files *)

Lemma process_uploads_acc technician_name service_date products uploads :
  forall shown results,
    process_uploads technician_name service_date products uploads shown results
    = ((shown ++ flat_map (fun u => fst (process_upload technician_name
                                           service_date products u)) uploads)%list,
       (results ++ flat_map (fun u => snd (process_upload technician_name
                                             service_date products u)) uploads)%list).
Proof.
  induction uploads as [|u rest IH]; intros shown results.
  - cbn. now rewrite !app_nil_r.
  - cbn [process_uploads flat_map]. rewrite IH. now rewrite <- !app_assoc.
Qed.

Lemma error_files_warnings (warnings : list string) :
  error_files (map Warning warnings) = [].
Proof. induction warnings as [|w ws IH]; [reflexivity | exact IH]. Qed.

Lemma process_upload_cases technician_name service_date products u :
  let step := process_upload technician_name service_date products u in
  if succeeds products u
  then map file (snd step) = [upload_name u] /\ error_files (fst step) = []
  else snd step = [] /\ error_files (fst step) = [upload_name u].
Proof.
  unfold process_upload, succeeds.
  destruct (upload_extraction u) as [text entities|message]; [|now split].
  cbn [docai_result fst].
  pose proof (check_compliance_fine_cases text products) as C. cbn zeta in C.
  destruct (catalog_fine (normalize_text (PStr text)) products).
  - rewrite C. cbn [fst snd map file]. split; [reflexivity|].
    apply error_files_warnings.
  - destruct C as (w & e & ->). cbn [fst snd]. split; [reflexivity|].
    unfold error_files. rewrite flat_map_app.
    fold (error_files (map Warning w)). now rewrite error_files_warnings.
Qed.

(** X13. In a batch, every uploaded file gets exactly one of the two: a
    result or an error message that names it. It gets a result exactly
    when its text was extracted and every catalog entry the text
    mentions is fine; the results and the errors keep the order of the
    upload, and a file that fails takes nothing from the files after
    it. *)
Theorem batch_results_and_errors :
  forall (technician_name service_date : string) (products : list pyval)
         (uploaded_files : list upload),
    let run := process_uploads technician_name service_date products
                 uploaded_files [] [] in
    map file (snd run)
    = map upload_name (filter (succeeds products) uploaded_files)
    /\ error_files (fst run)
       = map upload_name
           (filter (fun u => negb (succeeds products u)) uploaded_files)
    /\ List.length (snd run) + List.length (error_files (fst run))
       = List.length uploaded_files.
Proof.
  intros technician_name service_date products uploads run. subst run.
  rewrite process_uploads_acc. cbn [fst snd app].
  induction uploads as [|u rest (IH1 & IH2 & IH3)]; [now repeat split|].
  cbn [flat_map filter]. unfold error_files in *.
  rewrite map_app, flat_map_app, !List.length_app.
  pose proof (process_upload_cases technician_name service_date products u) as C.
  cbn zeta in C. unfold error_files in C.
  destruct (succeeds products u); cbn [negb map]; destruct C as [C1 C2];
    rewrite C2; cbn [app List.length].
  - assert (L : List.length (snd (process_upload technician_name service_date
                                    products u)) = 1).
    { now rewrite <- (List.length_map file), C1. }
    split; [now rewrite C1, IH1|]. split; [exact IH2|].
    rewrite L. cbn [Nat.add]. f_equal. exact IH3.
  - rewrite C1. cbn [app map List.length Nat.add].
    split; [exact IH1|]. split; [now rewrite IH2|].
    rewrite Nat.add_succ_r. f_equal. exact IH3.
Qed.

Lemma error_files_app (a b : list ui) :
  error_files (a ++ b) = (error_files a ++ error_files b)%list.
Proof. apply flat_map_app. Qed.

Lemma error_files_flat_map {A} (f : A -> list ui) (l : list A) :
  (forall a, error_files (f a) = []) -> error_files (flat_map f l) = [].
Proof.
  intros H. induction l as [|a l IH]; [reflexivity|]. cbn [flat_map].
  now rewrite error_files_app, H, IH.
Qed.

Lemma error_files_display_verdict (v : verdict) :
  error_files (display_verdict v) = [].
Proof.
  unfold display_verdict. rewrite !error_files_app.
  assert (E : error_files (map (fun detail => Write ("- " ++ detail)) (details v))
              = []).
  { induction (details v) as [|d ds IH]; [reflexivity | exact IH]. }
  now rewrite E.
Qed.

Lemma error_files_display_results (results : list file_result) :
  error_files (display_results results) = [].
Proof.
  unfold display_results. apply error_files_flat_map. intros r.
  rewrite !error_files_app.
  now rewrite (error_files_flat_map display_verdict _ error_files_display_verdict).
Qed.

Lemma written_findings_display_results (results : list file_result) :
  written_findings (display_results results)
  = flat_map details (all_verdicts results).
Proof.
  unfold all_verdicts.
  induction results as [|r rs IH]; [reflexivity|].
  cbn [display_results flat_map]. fold (display_results rs).
  rewrite flat_map_app, !written_findings_app, IH.
  rewrite (proj1 (display_verdicts_read (compliance_results r))).
  cbn. now rewrite app_nil_r.
Qed.

(** X14. With files uploaded and no technician name, [main] evaluates
    nothing and shows only the request for a name, whatever the files and
    the catalog. With a name, the page names in its error messages
    exactly the files that failed, in upload order, and the findings it
    lists are exactly the details of the verdicts of the files that did
    not fail. *)
Theorem main_batch_page :
  forall (technician_name service_date : string) (products : list pyval)
         (uploaded_files : list upload),
    uploaded_files <> [] ->
    (technician_name = "" ->
     main_batch technician_name service_date products uploaded_files
     = [Warning "Please enter a technician name."])
    /\ (technician_name <> "" ->
        let page := main_batch technician_name service_date products
                      uploaded_files in
        let run := process_uploads technician_name service_date products
                     uploaded_files [] [] in
        error_files page
        = map upload_name
            (filter (fun u => negb (succeeds products u)) uploaded_files)
        /\ map file (snd run)
           = map upload_name (filter (succeeds products) uploaded_files)
        /\ written_findings page
           = flat_map details (all_verdicts (snd run))).
Proof.
  intros technician_name service_date products uploads Hne. split.
  - intros ->. unfold main_batch. now destruct uploads.
  - intros Hname page run. subst page. unfold main_batch.
    apply String.eqb_neq in Hname. rewrite Hname.
    destruct uploads as [|u rest]; [congruence|]. cbn [negb andb].
    fold run.
    assert (B : map file (snd run)
                = map upload_name (filter (succeeds products) (u :: rest))
                /\ error_files (fst run)
                   = map upload_name
                       (filter (fun u => negb (succeeds products u)) (u :: rest))).
    { subst run. rewrite process_uploads_acc. cbn [fst snd app].
      generalize (u :: rest) as uploads. intros uploads.
      induction uploads as [|x xs [IH1 IH2]]; [now split|].
      cbn [flat_map filter]. rewrite map_app, error_files_app.
      pose proof (process_upload_cases technician_name service_date products x)
        as C. cbn zeta in C.
      destruct (succeeds products x); cbn [negb]; destruct C as [C1 C2];
        rewrite C1, C2, IH1, IH2; now split. }
    destruct B as [B1 B2].
    rewrite error_files_app, error_files_display_results, app_nil_r.
    split; [exact B2|]. split; [exact B1|].
    rewrite written_findings_app.
    assert (W : written_findings (fst run) = []).
    { subst run. rewrite process_uploads_acc. cbn [fst app].
      unfold written_findings. apply flat_map_all_nil. intros x Hx.
      apply in_flat_map in Hx as (up & _ & Hx).
      unfold process_upload in Hx.
      destruct (upload_extraction up) as [text entities|message].
      - destruct (check_compliance _ products) as [w [vs|e]]; cbn [fst] in Hx.
        + apply in_map_iff in Hx as (s & <- & _). reflexivity.
        + apply in_app_iff in Hx as [Hx|[<-|[]]]; [|reflexivity].
          apply in_map_iff in Hx as (s & <- & _). reflexivity.
      - destruct Hx as [<-|[]]. reflexivity. }
    rewrite W. cbn [app].
    apply written_findings_display_results.
Qed.

Lemma main_batch_page_no_name :
  main_batch "" "2024-05-01" [termidor]
    [ {| upload_name := "ticket.pdf";
         upload_extraction := Extracted termidor_ticket [] |} ]
  = [Warning "Please enter a technician name."].
Proof.
  apply (proj1 (main_batch_page "" "2024-05-01" [termidor]
                  [ {| upload_name := "ticket.pdf";
                       upload_extraction := Extracted termidor_ticket [] |} ]
                  ltac:(discriminate))).
  reflexivity.
Defined.
